(** * ITCH-Parser: hourly VWAP from a NASDAQ ITCH 5.0 byte stream

    A shallow embedding of [parser_windows.py] (class [Parser] and the
    [__main__] driver) and the properties of its framing loop, trade decoder
    and hourly aggregation.

    Python values are modelled as follows.
    - [bytes] objects are [list byte]; [str] objects are [string] (the UTF-8
      encoding of the text, which preserves equality and code point order).
    - [int] is [Z]; the [int64] columns of the pandas frame wrap around.
    - [float] is the primitive binary64 [float]; conversions and rounding to
      an integer go through [spec_float]; the float64 sum of a [groupby] is
      the compensated sum of pandas.
    - the [msg_size_table] dict is a [gmap] from [bytes] keys to lengths,
      which are natural numbers ([N]).
    - methods that read the stream, mutate [self] or raise are computations
      in a state-and-exception monad over the [Parser] record. *)

From Stdlib Require Import ZArith List Lia Bool.
From Stdlib Require Import Strings.String Strings.Ascii Strings.Byte.
From Stdlib Require Import Numbers.DecimalString.
From Stdlib Require Import Permutation Sorted.
From Stdlib Require Import Floats.PrimFloat Floats.SpecFloat Floats.FloatOps.
From Stdlib Require Import Structures.OrdersEx.
From stdpp Require Import base countable gmap.
Import ListNotations.
Local Open Scope Z_scope.
Set Warnings "-inexact-float".

(** ** Bytes *)

Abbreviation bytes := (list byte).

#[global] Instance byte_eq_dec : EqDecision byte := Byte.byte_eq_dec.

#[global] Instance byte_countable : Countable byte :=
  inj_countable Byte.to_N Byte.of_N Byte.of_to_N.

Module Bytes.

Definition to_Z (b : byte) : Z := Z.of_N (Byte.to_N b).

(** [int.from_bytes(bs, 'big')]: what [struct] does for [>I] and [>Q]. *)
Definition be_uint (bs : bytes) : Z :=
  fold_left (fun acc b => acc * 256 + to_Z b) bs 0.

(** [b'...'] literals. *)
Definition lit (s : string) : bytes := list_byte_of_string s.

(** The whitespace of [bytes.strip()]: space, tab, LF, VT, FF, CR. *)
Definition is_space (b : byte) : bool :=
  let c := to_Z b in (c =? 32) || ((9 <=? c) && (c <=? 13)).

Fixpoint lstrip (bs : bytes) : bytes :=
  match bs with
  | b :: bs' => if is_space b then lstrip bs' else bs
  | [] => []
  end.

Definition rstrip (bs : bytes) : bytes := rev (lstrip (rev bs)).

Definition strip (bs : bytes) : bytes := rstrip (lstrip bs).

Definition is_cont (b : byte) : bool :=
  let c := to_Z b in (128 <=? c) && (c <=? 191).

Definition in_range (lo hi : Z) (b : byte) : bool :=
  let c := to_Z b in (lo <=? c) && (c <=? hi).

(** Well-formed UTF-8 as the strict codec accepts it: shortest forms only,
    no surrogates, nothing above U+10FFFF. *)
Fixpoint utf8_valid (bs : bytes) : bool :=
  match bs with
  | [] => true
  | b0 :: r0 =>
      let c0 := to_Z b0 in
      if c0 <? 128 then utf8_valid r0
      else if c0 <? 194 then false
      else if c0 <? 224 then
        match r0 with
        | b1 :: r1 => is_cont b1 && utf8_valid r1
        | _ => false
        end
      else if c0 <? 240 then
        match r0 with
        | b1 :: b2 :: r2 =>
            (if c0 =? 224 then in_range 160 191 b1
             else if c0 =? 237 then in_range 128 159 b1
             else is_cont b1)
            && is_cont b2 && utf8_valid r2
        | _ => false
        end
      else if c0 <? 245 then
        match r0 with
        | b1 :: b2 :: b3 :: r3 =>
            (if c0 =? 240 then in_range 144 191 b1
             else if c0 =? 244 then in_range 128 143 b1
             else is_cont b1)
            && is_cont b2 && is_cont b3 && utf8_valid r3
        | _ => false
        end
      else false
  end.

End Bytes.

(** ** binary64 arithmetic *)

Module Float64.

(** [float(n)] and the int64 to float64 cast: round to nearest, ties to
    even. *)
Definition of_Z (z : Z) : float :=
  SF2Prim (binary_normalize prec emax z 0 false).

(** Nearest integer, ties to even, of a finite value. *)
Definition rint_Z (x : spec_float) : option Z :=
  match x with
  | S754_zero _ => Some 0
  | S754_finite s m e =>
      let n := Z.pos m in
      let k :=
        if 0 <=? e then n * 2 ^ e
        else
          let d := 2 ^ (- e) in
          let q := n / d in
          match (2 * (n mod d)) ?= d with
          | Lt => q
          | Gt => q + 1
          | Eq => if Z.even q then q else q + 1
          end in
      Some (if s then - k else k)
  | _ => None
  end.

(** C [rint]: infinities and NaN are returned unchanged, a zero result keeps
    the sign of the argument. *)
Definition rint (x : float) : float :=
  match rint_Z (Prim2SF x) with
  | Some k =>
      if k =? 0 then (if get_sign x then neg_zero else zero) else of_Z k
  | None => x
  end.

(** [numpy.round(x, 2)], which is what [Series.round(2)] applies to a
    float64 column: scale, [rint], scale back. *)
Definition round2 (x : float) : float := (rint (x * 100) / 100)%float.

(** Integer part towards minus infinity of a finite value. *)
Definition floor_Z (x : float) : Z :=
  match Prim2SF x with
  | S754_finite s m e =>
      let n := if s then Z.neg m else Z.pos m in
      if 0 <=? e then n * 2 ^ e else n / 2 ^ (- e)
  | _ => 0
  end.

End Float64.

(** ** int64 columns *)

(** Two's complement reduction of an integer to 64 bits. *)
Definition wrap64 (z : Z) : Z := (z + 2 ^ 63) mod 2 ^ 64 - 2 ^ 63.

(** ** Exceptions and the state-and-exception monad *)

(** The exception classes that the program can raise. *)
Inductive exn : Type :=
| KeyError
| struct_error
| UnicodeDecodeError
| AttributeError (attr : string).

(** The class name a traceback shows. *)
Definition exn_name (e : exn) : string :=
  match e with
  | KeyError => "KeyError"
  | struct_error => "struct.error"
  | UnicodeDecodeError => "UnicodeDecodeError"
  | AttributeError _ => "AttributeError"
  end.

(** How a computation ends: with a value, with an exception that propagates,
    or, for the [while] loop only, with its unrolling budget used up. *)
Inductive outcome (A : Type) : Type :=
| Normal (a : A)
| Raised (e : exn)
| Exhausted.
Arguments Normal {A} a.
Arguments Raised {A} e.
Arguments Exhausted {A}.

(** ** The trade-execution message *)

(** One element of [self.data]: the list [[stock, shares, price]]. *)
Record row : Type := mk_row { Stock : string; Shares : Z; Price : float }.

(** The tuple that [struct.unpack('>4s6sQcI8sIQ', msg)] returns. *)
Record trade_fields : Type := mk_fields {
  temp0 : bytes;   (* 4s *)
  temp1 : bytes;   (* 6s *)
  temp2 : Z;       (* Q  *)
  temp3 : bytes;   (* c  *)
  temp4 : Z;       (* I  *)
  temp5 : bytes;   (* 8s *)
  temp6 : Z;       (* I  *)
  temp7 : Z        (* Q  *)
}.

Definition slice (off len : nat) (bs : bytes) : bytes :=
  firstn len (skipn off bs).

(** [struct.unpack] with the big-endian, unpadded format of 43 bytes; any
    other buffer length is a [struct.error]. *)
Definition unpack_trade (msg : bytes) : outcome trade_fields :=
  if (length msg =? 43)%nat then
    Normal {| temp0 := slice 0 4 msg;
              temp1 := slice 4 6 msg;
              temp2 := Bytes.be_uint (slice 10 8 msg);
              temp3 := slice 18 1 msg;
              temp4 := Bytes.be_uint (slice 19 4 msg);
              temp5 := slice 23 8 msg;
              temp6 := Bytes.be_uint (slice 31 4 msg);
              temp7 := Bytes.be_uint (slice 35 8 msg) |}
  else Raised struct_error.

(** [bs.decode("utf-8")]. *)
Definition decode_utf8 (bs : bytes) : outcome string :=
  if Bytes.utf8_valid bs then Normal (string_of_list_byte bs)
  else Raised UnicodeDecodeError.

(** [Parser.parse]: the timestamp is the 6-byte field behind two zero bytes,
    read as a big-endian 64-bit integer. *)
Definition parse (msg : bytes) : outcome (Z * row) :=
  match unpack_trade msg with
  | Normal temp =>
      let temptime := [x00; x00] ++ temp1 temp in
      let timestamp := Bytes.be_uint temptime in
      let stock :=
        match decode_utf8 (Bytes.strip (temp5 temp)) with
        | Normal s => s
        | _ => "N/A"%string
        end in
      let shares := temp4 temp in
      let price := (Float64.of_Z (temp6 temp) / 10000)%float in
      Normal (timestamp, mk_row stock shares price)
  | Raised e => Raised e
  | Exhausted => Exhausted
  end.

(** ** Hour of a timestamp *)

(** The hour field of [datetime.fromtimestamp(t)]: [t] is split into whole
    seconds and a fraction, the fraction is rounded to microseconds (ties to
    even) with a carry into the seconds, and the seconds are shown in the
    local time zone of the process, [utcoffset] seconds east of UTC. *)
Definition fromtimestamp_hour (utcoffset : Z) (t : float) : Z :=
  let sec := Float64.floor_Z t in
  let frac := (t - Float64.of_Z sec)%float in
  let us := Float64.rint (frac * 1000000)%float in
  let sec' := if (1000000 <=? us)%float then sec + 1 else sec in
  ((sec' + utcoffset) / 3600) mod 24.

Definition digit (d : Z) : ascii := ascii_of_N (Z.to_N (48 + d)).

(** [strftime('%H')]: the hour as two decimal digits. *)
Definition strftime_H (hour : Z) : string :=
  String (digit (hour / 10)) (String (digit (hour mod 10)) EmptyString).

(** [int(s)] on a string of decimal digits. *)
Fixpoint int_of_digits (acc : Z) (s : string) : Z :=
  match s with
  | EmptyString => acc
  | String c s' => int_of_digits (acc * 10 + (Z.of_N (N_of_ascii c) - 48)) s'
  end.

Definition int_of_str (s : string) : Z := int_of_digits 0 s.

(** [Parser.convert_time], for a timestamp whose local time [datetime] can
    hold (the years 1 to 9999); the 48-bit timestamps that [parse] returns
    are all within four days of 1970-01-01. *)
Definition convert_time (utcoffset : Z) (timestamp : Z) : string :=
  let time := (Float64.of_Z timestamp / 1000000000)%float in
  strftime_H (fromtimestamp_hour utcoffset time).

(** ** The pandas frame of a flush *)

(** One line of [groupby("Stock")[["Shares", "Total"]].sum()]: the key with
    the int64 sum of [Shares] and the float64 sum of [Total]. *)
Definition group : Type := string * (Z * float).

(** [panda["Total"] = panda["Shares"] * panda["Price"]] for one line. *)
Definition Total (r : row) : float := (Float64.of_Z (Shares r) * Price r)%float.

(** What the sum keeps for one key while it goes through the lines: the
    int64 sum of [Shares] and, for [Total], the float64 sum with the
    compensation for the low-order bits that the additions lost so far. *)
Definition sums : Type := Z * (float * float).

Definition sums_zero : sums := (0, (0%float, 0%float)).

(** One line more in a float64 sum (pandas' [group_sum]): a NaN is left out,
    any other value goes in by
      y = val - compensation; t = sumx + y;
      compensation = t - sumx - y; sumx = t. *)
Definition kahan_add (acc : float * float) (val : float) : float * float :=
  if (val =? val)%float then
    let y := (val - snd acc)%float in
    let t := (fst acc + y)%float in
    (t, (t - fst acc - y)%float)
  else acc.

Definition sums_add (a : sums) (sh : Z) (tot : float) : sums :=
  (wrap64 (fst a + sh), kahan_add (snd a) tot).

(** The sums as they are returned: the compensation is dropped. *)
Definition totals (a : sums) : Z * float := (fst a, fst (snd a)).

(** Adds one line of the frame to the sums of its key. The groups are kept
    in ascending key order, as [groupby] sorts them ([String_as_OT.compare]
    is the lexicographic order on the bytes); a sum starts from zero and
    takes the lines in frame order. *)
Fixpoint group_add (k : string) (sh : Z) (tot : float)
  (g : list (string * sums)) : list (string * sums) :=
  match g with
  | [] => [(k, sums_add sums_zero sh tot)]
  | (k', a) :: g' =>
      match String_as_OT.compare k k' with
      | Eq => (k', sums_add a sh tot) :: g'
      | Lt => (k, sums_add sums_zero sh tot) :: g
      | Gt => (k', a) :: group_add k sh tot g'
      end
  end.

Definition group_sums (frame : list row) : list (string * sums) :=
  fold_left (fun g r => group_add (Stock r) (Shares r) (Total r) g) frame [].

Definition groupby_sum (frame : list row) : list group :=
  map (fun p => (fst p, totals (snd p))) (group_sums frame).

(** [panda["VWAP"] = (panda["Total"] / panda["Shares"]).round(2)] followed by
    the projection on [["Stock", "VWAP"]]. *)
Definition vwap_row (g : group) : string * float :=
  let '(k, (s, t)) := g in (k, Float64.round2 (t / Float64.of_Z s)%float).

Definition vwap_frame (data : list row) : list (string * float) :=
  map vwap_row (groupby_sum data).

(** ** The Parser object *)

(** The fields of [self], with the two things the object acts on: what is
    left to read of the decompressed file, and the reports written so far,
    in the order of the flushes (one per flush: the hour in the file name
    and in the printed heading, with the lines of the frame). *)
Record Parser : Type := mk_Parser {
  binary_data : bytes;
  closed : bool;
  msg_size_table : gmap bytes N;
  data : list row;
  currentHour : option Z;
  reports : list (Z * list (string * float))
}.

Definition M (A : Type) : Type := Parser -> outcome A * Parser.

Definition ret {A : Type} (a : A) : M A := fun self => (Normal a, self).

Definition raise {A : Type} (e : exn) : M A := fun self => (Raised e, self).

Definition bind {A B : Type} (m : M A) (k : A -> M B) : M B :=
  fun self =>
    match m self with
    | (Normal a, self') => k a self'
    | (Raised e, self') => (Raised e, self')
    | (Exhausted, self') => (Exhausted, self')
    end.

Notation "'let*' x := m 'in' k" := (bind m (fun x => k))
  (at level 10, x binder, m at level 200, k at level 200).

(** [try: body except E: handler], for the exceptions [E] selects. *)
Definition try_except {A : Type} (body : M A) (E : exn -> bool)
  (handler : M A) : M A :=
  fun self =>
    match body self with
    | (Raised e, self') => if E e then handler self' else (Raised e, self')
    | r => r
    end.

Definition is_KeyError (e : exn) : bool :=
  match e with KeyError => true | _ => false end.

(** A pure computation that may raise, run inside a method. *)
Definition lift {A : Type} (o : outcome A) : M A := fun self => (o, self).

(** [Parser.__init__] on the bytes that [gzip.open] decompresses. *)
Definition init (msg_sizes : gmap bytes N) (file : bytes) : Parser :=
  {| binary_data := file; closed := false; msg_size_table := msg_sizes;
     data := []; currentHour := None; reports := [] |}.

(** [self.binary_data.read(n)] for a length [n]: the next [n] bytes, or what
    is left when that is less. *)
Definition read (n : N) : M bytes := fun self =>
  let k := N.to_nat n in
  (Normal (firstn k (binary_data self)),
   {| binary_data := skipn k (binary_data self); closed := closed self;
      msg_size_table := msg_size_table self; data := data self;
      currentHour := currentHour self; reports := reports self |}).

Definition read_binary_msg_type : M bytes := read 1%N.

Definition read_binary (msg_size : N) : M bytes := read msg_size.

Definition close_binary : M unit := fun self =>
  (Normal tt,
   {| binary_data := binary_data self; closed := true;
      msg_size_table := msg_size_table self; data := data self;
      currentHour := currentHour self; reports := reports self |}).

(** [self.msg_size_table[msg_type]]. *)
Definition table_getitem (msg_type : bytes) : M N := fun self =>
  match msg_size_table self !! msg_type with
  | Some n => (Normal n, self)
  | None => (Raised KeyError, self)
  end.

Definition get {A : Type} (field : Parser -> A) : M A := fun self =>
  (Normal (field self), self).

Definition set_data (d : list row) : M unit := fun self =>
  (Normal tt,
   {| binary_data := binary_data self; closed := closed self;
      msg_size_table := msg_size_table self; data := d;
      currentHour := currentHour self; reports := reports self |}).

Definition set_currentHour (hour : Z) : M unit := fun self =>
  (Normal tt,
   {| binary_data := binary_data self; closed := closed self;
      msg_size_table := msg_size_table self; data := data self;
      currentHour := Some hour; reports := reports self |}).

(** [to_csv] and the two [print]s of a flush: one more entry in the log of
    what was written. The printed output is this log; the files are what
    [csv_file] makes of it. *)
Definition report (hour : Z) (panda : list (string * float)) : M unit :=
  fun self =>
    (Normal tt,
     {| binary_data := binary_data self; closed := closed self;
        msg_size_table := msg_size_table self; data := data self;
        currentHour := currentHour self;
        reports := reports self ++ [(hour, panda)] |}).

Definition append_data (parsed : row) : M unit := fun self =>
  (Normal tt,
   {| binary_data := binary_data self; closed := closed self;
      msg_size_table := msg_size_table self; data := data self ++ [parsed];
      currentHour := currentHour self; reports := reports self |}).

(** [str(n)]. *)
Definition str_of_int (n : Z) : string := NilZero.string_of_int (Z.to_int n).

(** The name of the file that the flush of a bucket of hour [hour] writes:
    [str(self.currentHour) + "00.txt"]. *)
Definition csv_name (hour : Z) : string :=
  (str_of_int hour ++ "00.txt")%string.

(** The content of the file [name] behind the flushes of a log. [to_csv]
    replaces a file that exists: when an hour label comes back, the frame of
    the later flush is the one that stays. *)
Definition csv_file (name : string) (log : list (Z * list (string * float)))
  : option (list (string * float)) :=
  fold_left
    (fun file rep =>
       if String.eqb (csv_name (fst rep)) name then Some (snd rep) else file)
    log None.

(** [Parser.process_trade], in the time zone [utcoffset]. *)
Definition process_trade (utcoffset : Z) (msg : bytes) : M unit :=
  let* '(timestamp, parsed) := lift (parse msg) in
  let hour := int_of_str (convert_time utcoffset timestamp) in
  let* cur := get currentHour in
  let* _ :=
    match cur with
    | None => set_currentHour hour
    | Some cur =>
        if (cur + 1) mod 24 =? hour then
          let* d := get data in
          let* _ := report cur (vwap_frame d) in
          let* _ := set_data [] in
          set_currentHour hour
        else ret tt
    end in
  append_data parsed.

(** [Parser.check_for_trade_msg]. *)
Definition check_for_trade_msg (utcoffset : Z) (msg_type : bytes) : M unit :=
  try_except
    (let* n := table_getitem msg_type in
     let* msg := read n in
     if decide (msg_type = Bytes.lit "P") then process_trade utcoffset msg
     else ret tt)
    is_KeyError
    (ret tt).

(** The [while(msg_type)] loop of the driver, unrolled at most [fuel] times. *)
Fixpoint while_msg_type (fuel : nat) (utcoffset : Z) (msg_type : bytes)
  : M unit :=
  match msg_type with
  | [] => ret tt
  | _ :: _ =>
      match fuel with
      | O => fun self => (Exhausted, self)
      | S fuel' =>
          let* _ := check_for_trade_msg utcoffset msg_type in
          let* msg_type' := read_binary_msg_type in
          while_msg_type fuel' utcoffset msg_type'
      end
  end.

(** The read loop from the first [read_binary_msg_type] on. Every turn
    consumes the byte of its type tag, so the length of the file bounds the
    number of turns. *)
Definition read_loop (utcoffset : Z) : M unit :=
  let* n := get (fun self => length (binary_data self)) in
  let* msg_type := read_binary_msg_type in
  while_msg_type n utcoffset msg_type.

(** The [__main__] block after the construction of the object. [Parser] has
    no attribute [save_excel], so looking it up raises. *)
Definition main (utcoffset : Z) : M unit :=
  let* _ := read_loop utcoffset in
  let* _ := close_binary in
  raise (AttributeError "save_excel").

(** The table of the driver. *)
Definition NASDAQ_MSG_SIZES : gmap bytes N :=
  list_to_map
    [ (Bytes.lit "S", 11); (Bytes.lit "R", 38); (Bytes.lit "H", 24);
      (Bytes.lit "Y", 19); (Bytes.lit "L", 25); (Bytes.lit "V", 34);
      (Bytes.lit "W", 11); (Bytes.lit "K", 27); (Bytes.lit "A", 35);
      (Bytes.lit "F", 39); (Bytes.lit "E", 30); (Bytes.lit "C", 35);
      (Bytes.lit "X", 22); (Bytes.lit "D", 18); (Bytes.lit "U", 34);
      (Bytes.lit "P", 43); (Bytes.lit "Q", 39); (Bytes.lit "B", 18);
      (Bytes.lit "I", 49); (Bytes.lit "N", 19) ]%N.

(** ** Building messages *)

(** [z.to_bytes(n, 'big')], the inverse of [Bytes.be_uint] on [n] bytes. *)
Fixpoint be_bytes (n : nat) (z : Z) : bytes :=
  match n with
  | O => []
  | S n' =>
      be_bytes n' (z / 256)
      ++ [match Byte.of_N (Z.to_N (z mod 256)) with Some b => b | None => x00 end]
  end.

(** [struct.pack('>4s6sQcI8sIQ', ...)] of a trade with zero locate, order
    and match numbers and side [B]; [symbol] holds the 8 bytes of the field. *)
Definition pack_trade (timestamp shares : Z) (symbol : bytes) (price : Z)
  : bytes :=
  be_bytes 4 0 ++ be_bytes 6 timestamp ++ be_bytes 8 0 ++ Bytes.lit "B"
  ++ be_bytes 4 shares ++ firstn 8 (symbol ++ repeat x20 8)
  ++ be_bytes 4 price ++ be_bytes 8 0.

(** Nanoseconds in an hour. *)
Definition ns_per_hour : Z := 3600 * 1000000000.

(** ** Vocabulary of the properties *)

(** The hour that [process_trade] derives from a timestamp. *)
Definition hour_of (utcoffset timestamp : Z) : Z :=
  int_of_str (convert_time utcoffset timestamp).

(** The records of one instrument, in arrival order. *)
Definition rows_of (k : string) (d : list row) : list row :=
  List.filter (fun r => String.eqb (Stock r) k) d.

(** [sum(shares)] as an integer. *)
Definition sum_shares (l : list row) : Z :=
  fold_left (fun a r => a + Shares r) l 0.

(** [sum(shares * price)] in binary64 as [groupby(...).sum()] takes it: the
    products in arrival order, by compensated summation. *)
Definition sum_notional (l : list row) : float :=
  fst (fold_left (fun a r => kahan_add a (Total r)) l (0%float, 0%float)).

(** [sum(shares * price) / sum(shares)] rounded to 2 decimals, for the
    records of instrument [k] in [d]. *)
Definition vwap_of (k : string) (d : list row) : float :=
  Float64.round2
    (sum_notional (rows_of k d) / Float64.of_Z (sum_shares (rows_of k d)))%float.

(** The same with the share total as the int64 column holds it. *)
Definition vwap_int64 (k : string) (d : list row) : float :=
  Float64.round2
    (sum_notional (rows_of k d)
     / Float64.of_Z (wrap64 (sum_shares (rows_of k d))))%float.

(** The record that [parse] makes of a trade of instrument [k], given by its
    shares and its price in units of 1/10000. *)
Definition trade_row (k : string) (t : Z * Z) : row :=
  mk_row k (fst t) (Float64.of_Z (snd t) / 10000)%float.

(** [n / d] rounded to the nearest integer, a tie to the even one. *)
Definition round_half_even (n d : Z) : Z :=
  let q := n / d in
  let r := n mod d in
  if 2 * r <? d then q
  else if d <? 2 * r then q + 1
  else if Z.even q then q else q + 1.

(** [sum(shares * price) / sum(shares)] of a list of trades as a rational
    number, rounded to 2 decimal places: the result in hundredths. *)
Definition exact_vwap_cents (trades : list (Z * Z)) : Z :=
  round_half_even
    (fold_right (fun t a => fst t * snd t + a) 0 trades)
    (100 * fold_right (fun t a => fst t + a) 0 trades).

(** A value that an int64 holds without wrapping. *)
Definition int64_range (z : Z) : Prop := - 2 ^ 63 <= z < 2 ^ 63.

(** The instruments of a list of records: every symbol once, in ascending
    order. *)
Fixpoint insert_symbol (k : string) (ks : list string) : list string :=
  match ks with
  | [] => [k]
  | k' :: ks' =>
      match String_as_OT.compare k k' with
      | Eq => ks
      | Lt => k :: ks
      | Gt => k' :: insert_symbol k ks'
      end
  end.

Definition instruments (d : list row) : list string :=
  fold_right (fun r ks => insert_symbol (Stock r) ks) [] d.

(** The per-instrument VWAP table of a bucket: one line for each instrument
    of the bucket, with the VWAP over the records of that instrument. *)
Definition vwap_table (d : list row) : list (string * float) :=
  map (fun k => (k, vwap_int64 k d)) (instruments d).

(** [self] with another bucket and report log. *)
Definition with_bucket (self : Parser) (hour : option Z) (d : list row)
  (reps : list (Z * list (string * float))) : Parser :=
  {| binary_data := binary_data self; closed := closed self;
     msg_size_table := msg_size_table self; data := d;
     currentHour := hour; reports := reps |}.

(** [self] with other bytes left to read. *)
Definition with_binary_data (self : Parser) (bs : bytes) : Parser :=
  {| binary_data := bs; closed := closed self;
     msg_size_table := msg_size_table self; data := data self;
     currentHour := currentHour self; reports := reports self |}.

(** [self] after [close_binary]. *)
Definition with_closed (self : Parser) : Parser :=
  {| binary_data := binary_data self; closed := true;
     msg_size_table := msg_size_table self; data := data self;
     currentHour := currentHour self; reports := reports self |}.

(** A file made of trade-execution messages with the given bodies. *)
Definition trade_stream (msgs : list bytes) : bytes :=
  concat (map (fun m => Bytes.lit "P" ++ m) msgs).

(** The record that a well-formed body decodes to. *)
Definition parsed_rows (msgs : list bytes) : list row :=
  flat_map (fun m => match parse m with
                     | Normal (_, r) => [r]
                     | _ => []
                     end) msgs.

(** ** Association lists in key order *)

Section KeyOrder.

Context {V : Type}.

Fixpoint lookup_key (k : string) (g : list (string * V)) : option V :=
  match g with
  | [] => None
  | (k', v) :: g' => if String.eqb k k' then Some v else lookup_key k g'
  end.

Definition key_lt (p q : string * V) : Prop :=
  String_as_OT.lt (fst p) (fst q).

Definition key_sorted (g : list (string * V)) : Prop :=
  StronglySorted key_lt g.

End KeyOrder.

(** ** Steps of the methods *)

(** What one more line does to the sums of its key. *)
Definition acc_row (o : option sums) (r : row) : option sums :=
  Some (sums_add (match o with Some a => a | None => sums_zero end)
          (Shares r) (Total r)).

(** The object after [process_trade] has handled a record of hour [hour]. *)
Definition after_trade (hour : Z) (parsed : row) (self : Parser) : Parser :=
  match currentHour self with
  | None => with_bucket self (Some hour) (data self ++ [parsed]) (reports self)
  | Some cur =>
      if (cur + 1) mod 24 =? hour then
        with_bucket self (Some hour) [parsed]
          (reports self ++ [(cur, vwap_frame (data self))])
      else with_bucket self (Some cur) (data self ++ [parsed]) (reports self)
  end.

(** What [process_trade] does to the object for the body [m]. *)
Definition trade_step (utcoffset : Z) (self : Parser) (m : bytes) : Parser :=
  match parse m with
  | Normal (ts, r) => after_trade (hour_of utcoffset ts) r self
  | _ => self
  end.

(** The instruments of a frame with their int64 share totals. *)
Definition share_totals (d : list row) : list (string * Z) :=
  map (fun g : group => (fst g, fst (snd g))) (groupby_sum d).

(** ** Worked inputs *)

(** The two trades of hour 9 of the worked example, and a trade of hour 10. *)
Definition aapl_100 : bytes :=
  pack_trade (9 * ns_per_hour + 5) 100 (Bytes.lit "AAPL") 100000.
Definition aapl_200 : bytes :=
  pack_trade (9 * ns_per_hour + 7) 200 (Bytes.lit "AAPL") 110000.
Definition msft_10h : bytes :=
  pack_trade (10 * ns_per_hour) 5 (Bytes.lit "MSFT") 1000000.

(** A byte that is not a key of the driver's table, before a trade. *)
Definition unknown_tag_file : bytes := x00 :: trade_stream [aapl_100].

(** A trade, and a second one cut after 20 bytes of its body. *)
Definition truncated_file : bytes :=
  trade_stream [aapl_100] ++ Bytes.lit "P" ++ firstn 20 aapl_200.

(** A trade of hour 0, five nanoseconds after midnight. *)
Definition aapl_midnight : bytes := pack_trade 5 100 (Bytes.lit "AAPL") 100000.

(** A trade whose symbol field starts with two bytes that no UTF-8 text
    has. *)
Definition bad_symbol : bytes :=
  pack_trade (9 * ns_per_hour) 100 [xff; xfe; x41] 100000.

(** A trade of hour 9 with no shares. *)
Definition zero_shares_9h : bytes :=
  pack_trade (9 * ns_per_hour) 0 (Bytes.lit "ZVZZT") 15000.

(** Three one-share trades of hour 9 at 0.0370, 0.1820 and 0.0660. *)
Definition x_370 : bytes := pack_trade (9 * ns_per_hour) 1 (Bytes.lit "X") 370.
Definition x_1820 : bytes :=
  pack_trade (9 * ns_per_hour + 1) 1 (Bytes.lit "X") 1820.
Definition x_660 : bytes :=
  pack_trade (9 * ns_per_hour + 2) 1 (Bytes.lit "X") 660.

(** The hours of the bodies of a list, -1 for a body that does not decode. *)
Definition hours_of (utcoffset : Z) (msgs : list bytes) : list Z :=
  map (fun m => match parse m with
                | Normal (ts, _) => hour_of utcoffset ts
                | _ => -1
                end) msgs.

(** ** Files of framed messages *)

(** A file as the framer sees it: type tags, each with the bytes that follow
    it up to the next tag. *)
Definition framed_stream (msgs : list (byte * bytes)) : bytes :=
  concat (map (fun m => fst m :: snd m) msgs).

(** A tag of the table followed by a body of the length the table gives, or
    a tag that the table does not hold, alone. *)
Definition well_framed (table : gmap bytes N) (m : byte * bytes) : Prop :=
  table !! [fst m] = Some (N.of_nat (length (snd m)))
  \/ (table !! [fst m] = None /\ snd m = []).

(** The bodies behind the tag [P], in file order. *)
Definition trade_bodies (msgs : list (byte * bytes)) : list bytes :=
  map snd (List.filter (fun m => Byte.eqb (fst m) x50) msgs).

(** ** Hours of a run *)

(** Bodies that decode to records of hour [h]. *)
Definition of_hour (utcoffset h : Z) (msgs : list bytes) : Prop :=
  Forall (fun m => exists ts r,
              parse m = Normal (ts, r) /\ hour_of utcoffset ts = h) msgs.

(** Non-empty groups of bodies, the first of hour [h] and each next one of
    the hour after. *)
Fixpoint hourly (utcoffset h : Z) (groups : list (list bytes)) : Prop :=
  match groups with
  | [] => True
  | g :: gs =>
      g <> [] /\ of_hour utcoffset h g /\ hourly utcoffset ((h + 1) mod 24) gs
  end.

(** The per-instrument VWAP table of every group but the last, under its
    hour. *)
Fixpoint hourly_reports (h : Z) (groups : list (list bytes))
  : list (Z * list (string * float)) :=
  match groups with
  | g :: (_ :: _) as gs =>
      (h, vwap_table (parsed_rows g)) :: hourly_reports ((h + 1) mod 24) gs
  | _ => []
  end.

(** [self] as a machine [k] hours further east labels it. *)
Definition relabel (k : Z) (self : Parser) : Parser :=
  with_bucket self
    (option_map (fun h => (h + k) mod 24) (currentHour self))
    (data self)
    (map (fun rep => ((fst rep + k) mod 24, snd rep)) (reports self)).

(** What holds of the bucket and of the reports all along a run. *)
Definition bucket_ok (self : Parser) : Prop :=
  match currentHour self with
  | None => data self = [] /\ reports self = []
  | Some h => 0 <= h < 24 /\ data self <> []
  end
  /\ Forall (fun r => 0 <= Shares r < 2 ^ 32) (data self)
  /\ Forall (fun rep => 0 <= fst rep < 24 /\ snd rep <> []) (reports self).

(** * Properties *)

(** ** Lists in key order *)

Section KeyOrderFacts.

Context {V : Type}.

Lemma lt_neq (a b : string) : String_as_OT.lt a b -> a <> b.
Proof.
  intros H ->. exact (StrictOrder_Irreflexive (R := String_as_OT.lt) b H).
Qed.

Lemma lookup_key_below (k : string) (v : V) (g : list (string * V)) :
  Forall (key_lt (k, v)) g -> lookup_key k g = None.
Proof.
  induction 1 as [|[k' v'] g' Hlt _ IH]; simpl; [reflexivity|].
  unfold key_lt in Hlt; simpl in Hlt.
  destruct (String.eqb_spec k k') as [->|_]; [|exact IH].
  exfalso. exact (lt_neq _ _ Hlt eq_refl).
Qed.

Lemma lookup_key_In (g : list (string * V)) (k : string) (v : V) :
  key_sorted g -> (In (k, v) g <-> lookup_key k g = Some v).
Proof.
  induction 1 as [|[k' v'] g' Hs IH Hall]; simpl.
  - split; [tauto | discriminate].
  - destruct (String.eqb_spec k k') as [->|Hne].
    + split.
      * intros [E|Hin]; [congruence|].
        rewrite List.Forall_forall in Hall. apply Hall in Hin.
        exfalso. exact (lt_neq _ _ Hin eq_refl).
      * intros E. left. congruence.
    + rewrite <- IH. split; [|tauto].
      intros [E|Hin]; [congruence | exact Hin].
Qed.

(** Two lists in key order with the same bindings are the same list. *)
Lemma key_sorted_ext (g1 g2 : list (string * V)) :
  key_sorted g1 -> key_sorted g2 ->
  (forall k, lookup_key k g1 = lookup_key k g2) -> g1 = g2.
Proof.
  intros H1; revert g2.
  induction H1 as [|[k1 v1] g1 Hs1 IH Hall1]; intros g2 H2 Hext.
  - destruct g2 as [|[k2 v2] g2]; [reflexivity|].
    specialize (Hext k2). simpl in Hext. rewrite String.eqb_refl in Hext.
    discriminate.
  - destruct H2 as [|[k2 v2] g2 Hs2 Hall2].
    + specialize (Hext k1). simpl in Hext. rewrite String.eqb_refl in Hext.
      discriminate.
    + assert (Hk : k1 = k2).
      { pose proof (Hext k1) as E1. pose proof (Hext k2) as E2.
        simpl in E1, E2. rewrite String.eqb_refl in E1, E2.
        destruct (String.eqb_spec k1 k2) as [E|Hne]; [exact E|].
        destruct (String.eqb_spec k2 k1) as [E|_]; [congruence|].
        symmetry in E1.
        apply (lookup_key_In g2 k1 v1 Hs2) in E1.
        apply (lookup_key_In g1 k2 v2 Hs1) in E2.
        rewrite List.Forall_forall in Hall1, Hall2.
        apply Hall1 in E2. apply Hall2 in E1.
        unfold key_lt in E1, E2. simpl in E1, E2.
        exfalso.
        exact (lt_neq _ _ (StrictOrder_Transitive _ _ _ E1 E2) eq_refl). }
      subst k2.
      assert (Hv : v1 = v2).
      { specialize (Hext k1). simpl in Hext.
        rewrite String.eqb_refl in Hext. congruence. }
      subst v2. f_equal. apply IH; [exact Hs2|].
      intros k. specialize (Hext k). simpl in Hext.
      destruct (String.eqb_spec k k1) as [E|_]; [rewrite E|exact Hext].
      rewrite (lookup_key_below k1 v1 g1 Hall1).
      rewrite (lookup_key_below k1 v1 g2 Hall2). reflexivity.
Qed.

End KeyOrderFacts.

(** ** The groups of a frame *)

Lemma lookup_key_map {V W : Type} (f : V -> W) (g : list (string * V))
  (k : string) :
  lookup_key k (map (fun p => (fst p, f (snd p))) g)
  = option_map f (lookup_key k g).
Proof.
  induction g as [|[k' v] g IH]; simpl; [reflexivity|].
  destruct (String.eqb k k'); [reflexivity | exact IH].
Qed.

Lemma key_sorted_map {V W : Type} (f : V -> W) (g : list (string * V)) :
  key_sorted g -> key_sorted (map (fun p => (fst p, f (snd p))) g).
Proof.
  induction 1 as [|p g Hs IH Hall]; simpl; constructor; [exact IH|].
  rewrite List.Forall_forall in *. intros q Hq.
  apply in_map_iff in Hq. destruct Hq as [q' [<- Hq']].
  exact (Hall q' Hq').
Qed.

Lemma compare_Eq_eq (a b : string) : String_as_OT.compare a b = Eq -> a = b.
Proof.
  intros H. destruct (String_as_OT.compare_spec a b); congruence.
Qed.

Lemma compare_Gt_lt (a b : string) :
  String_as_OT.compare a b = Gt -> String_as_OT.lt b a.
Proof.
  intros H. destruct (String_as_OT.compare_spec a b); congruence.
Qed.

Lemma group_add_keys (k : string) (sh : Z) (tot : float)
  (g : list (string * sums)) (p : string * sums) :
  In p (group_add k sh tot g) -> fst p = k \/ exists q, In q g /\ fst q = fst p.
Proof.
  induction g as [|[k' a] g' IH]; simpl.
  - intros [<-|[]]. left. reflexivity.
  - destruct (String_as_OT.compare k k') eqn:E; simpl.
    + intros [<-|Hin]; right.
      * exists (k', a). split; [left|]; reflexivity.
      * exists p. split; [right; exact Hin | reflexivity].
    + intros [<-|[<-|Hin]].
      * left. reflexivity.
      * right. exists (k', a). split; [left|]; reflexivity.
      * right. exists p. split; [right; exact Hin | reflexivity].
    + intros [<-|Hin].
      * right. exists (k', a). split; [left|]; reflexivity.
      * destruct (IH Hin) as [Hk|[q [Hq Hf]]]; [left; exact Hk|].
        right. exists q. split; [right; exact Hq | exact Hf].
Qed.

Lemma group_add_sorted (k : string) (sh : Z) (tot : float)
  (g : list (string * sums)) :
  key_sorted g -> key_sorted (group_add k sh tot g).
Proof.
  induction 1 as [|[k' a] g' Hs IH Hall]; simpl.
  - constructor; constructor.
  - destruct (String_as_OT.compare k k') eqn:E.
    + constructor; [exact Hs|].
      eapply List.Forall_impl; [|exact Hall]. intros q Hq. exact Hq.
    + constructor; [constructor; assumption|].
      constructor; [exact E|].
      eapply List.Forall_impl; [|exact Hall]. intros q Hq.
      unfold key_lt in *. simpl in *.
      exact (StrictOrder_Transitive _ _ _ E Hq).
    + constructor; [exact IH|].
      rewrite List.Forall_forall. intros p Hp.
      destruct (group_add_keys _ _ _ _ _ Hp) as [Hk|[q [Hq Hf]]].
      * unfold key_lt. simpl. rewrite Hk. exact (compare_Gt_lt _ _ E).
      * rewrite List.Forall_forall in Hall. specialize (Hall q Hq).
        unfold key_lt in *. simpl in *. rewrite <- Hf. exact Hall.
Qed.

Lemma group_add_lookup (k : string) (sh : Z) (tot : float)
  (g : list (string * sums)) (k0 : string) :
  key_sorted g ->
  lookup_key k0 (group_add k sh tot g)
  = if String.eqb k0 k
    then Some (sums_add (match lookup_key k g with
                         | Some a => a
                         | None => sums_zero
                         end) sh tot)
    else lookup_key k0 g.
Proof.
  induction 1 as [|[k' a] g' Hs IH Hall]; cbn [group_add lookup_key].
  - reflexivity.
  - destruct (String_as_OT.compare k k') eqn:E; cbn [lookup_key].
    + apply compare_Eq_eq in E. subst k'. rewrite String.eqb_refl.
      destruct (String.eqb k0 k); reflexivity.
    + assert (Hne : String.eqb k k' = false).
      { apply String.eqb_neq. exact (lt_neq _ _ E). }
      rewrite Hne.
      assert (Hnone : lookup_key k g' = None).
      { apply (lookup_key_below k a).
        eapply List.Forall_impl; [|exact Hall]. intros q Hq.
        unfold key_lt in *. simpl in *.
        exact (StrictOrder_Transitive _ _ _ E Hq). }
      rewrite Hnone. destruct (String.eqb k0 k); reflexivity.
    + assert (Hne : String.eqb k k' = false).
      { apply String.eqb_neq. intros ->.
        exact (lt_neq _ _ (compare_Gt_lt _ _ E) eq_refl). }
      rewrite Hne, IH.
      destruct (String.eqb_spec k0 k') as [->|_]; [|reflexivity].
      rewrite String.eqb_sym, Hne. reflexivity.
Qed.

Lemma wrap64_idem (a b : Z) : wrap64 (wrap64 a + b) = wrap64 (a + b).
Proof.
  unfold wrap64. f_equal.
  replace ((a + 2 ^ 63) mod 2 ^ 64 - 2 ^ 63 + b + 2 ^ 63)
    with ((a + 2 ^ 63) mod 2 ^ 64 + b) by ring.
  rewrite Zplus_mod_idemp_l. f_equal. ring.
Qed.

Lemma wrap64_small (z : Z) : int64_range z -> wrap64 z = z.
Proof.
  unfold int64_range, wrap64. intros H.
  rewrite Z.mod_small; lia.
Qed.

Lemma fold_wrap64 (l : list row) (a : Z) :
  fold_left (fun a r => wrap64 (a + Shares r)) l (wrap64 a)
  = wrap64 (fold_left (fun a r => a + Shares r) l a).
Proof.
  revert a. induction l as [|r l IH]; intros a; simpl; [reflexivity|].
  rewrite wrap64_idem. apply IH.
Qed.

Lemma fold_acc_row_Some (l : list row) (a : sums) :
  fold_left acc_row l (Some a)
  = Some (fold_left (fun a r => wrap64 (a + Shares r)) l (fst a),
          fold_left (fun a r => kahan_add a (Total r)) l (snd a)).
Proof.
  revert a. induction l as [|r l IH]; intros [s c]; [reflexivity|].
  cbn [fold_left]. unfold acc_row at 2. rewrite IH. reflexivity.
Qed.

Lemma fold_acc_row_None (l : list row) :
  fold_left acc_row l None
  = match l with
    | [] => None
    | _ :: _ =>
        Some (wrap64 (sum_shares l),
              fold_left (fun a r => kahan_add a (Total r)) l
                (0%float, 0%float))
    end.
Proof.
  destruct l as [|r l]; [reflexivity|].
  cbn [fold_left]. unfold acc_row at 2.
  rewrite fold_acc_row_Some. unfold sums_add, sums_zero. cbn [fst snd].
  rewrite fold_wrap64. reflexivity.
Qed.

Lemma fold_group_add (l : list row) (g : list (string * sums)) :
  key_sorted g ->
  key_sorted
    (fold_left (fun g r => group_add (Stock r) (Shares r) (Total r) g) l g)
  /\ forall k,
      lookup_key k
        (fold_left (fun g r => group_add (Stock r) (Shares r) (Total r) g) l g)
      = fold_left acc_row (rows_of k l) (lookup_key k g).
Proof.
  revert g. induction l as [|r l IH]; intros g Hg; cbn [fold_left].
  - split; [exact Hg | reflexivity].
  - destruct (IH _ (group_add_sorted (Stock r) (Shares r) (Total r) g Hg))
      as [Hs Hl].
    split; [exact Hs|]. intros k. rewrite Hl.
    rewrite (group_add_lookup _ _ _ _ k Hg).
    rewrite (String.eqb_sym k (Stock r)).
    unfold rows_of. cbn [List.filter].
    destruct (String.eqb_spec (Stock r) k) as [<-|_]; reflexivity.
Qed.

Lemma groupby_sum_sorted (d : list row) : key_sorted (groupby_sum d).
Proof. apply key_sorted_map, fold_group_add. constructor. Qed.

(** The group of a key holds the sums over the lines of that key. *)
Lemma groupby_sum_lookup (d : list row) (k : string) :
  lookup_key k (groupby_sum d)
  = match rows_of k d with
    | [] => None
    | _ :: _ =>
        Some (wrap64 (sum_shares (rows_of k d)), sum_notional (rows_of k d))
    end.
Proof.
  unfold groupby_sum, group_sums. rewrite (lookup_key_map totals).
  destruct (fold_group_add d [] (SSorted_nil _)) as [_ H].
  rewrite H. cbn [lookup_key]. rewrite fold_acc_row_None.
  destruct (rows_of k d); reflexivity.
Qed.

Lemma rows_of_nonempty (k : string) (d : list row) :
  rows_of k d <> [] <-> exists r, In r d /\ Stock r = k.
Proof.
  unfold rows_of. split.
  - intros H. destruct (List.filter _ d) as [|r l] eqn:E; [congruence|].
    assert (Hin : In r (List.filter (fun r => String.eqb (Stock r) k) d))
      by (rewrite E; left; reflexivity).
    apply filter_In in Hin. destruct Hin as [Hin Hk].
    exists r. split; [exact Hin | apply String.eqb_eq; exact Hk].
  - intros [r [Hin Hk]] E.
    assert (Hf : In r (List.filter (fun r => String.eqb (Stock r) k) d)).
    { apply filter_In. split; [exact Hin | apply String.eqb_eq; exact Hk]. }
    rewrite E in Hf. destruct Hf.
Qed.

(** The lines of the VWAP frame: one per instrument that has records. *)
Lemma vwap_frame_In (d : list row) (k : string) (v : float) :
  In (k, v) (vwap_frame d)
  <-> rows_of k d <> []
      /\ v = Float64.round2
               (sum_notional (rows_of k d)
                / Float64.of_Z (wrap64 (sum_shares (rows_of k d))))%float.
Proof.
  unfold vwap_frame. rewrite in_map_iff. split.
  - intros [[k' [s t]] [E Hin]]. simpl in E. inversion E; subst k' v.
    apply (lookup_key_In _ _ _ (groupby_sum_sorted d)) in Hin.
    rewrite groupby_sum_lookup in Hin.
    destruct (rows_of k d) as [|r l] eqn:Er; [discriminate|].
    inversion Hin; subst s t. split; [discriminate | reflexivity].
  - intros [Hne ->].
    exists (k, (wrap64 (sum_shares (rows_of k d)), sum_notional (rows_of k d))).
    split; [reflexivity|].
    apply (lookup_key_In _ _ _ (groupby_sum_sorted d)).
    rewrite groupby_sum_lookup.
    destruct (rows_of k d) as [|r l]; [congruence | reflexivity].
Qed.

(** ** The frame of a flush is the per-instrument VWAP table *)

Lemma insert_symbol_In (k x : string) (ks : list string) :
  In x (insert_symbol k ks) <-> x = k \/ In x ks.
Proof.
  induction ks as [|k' ks IH]; simpl.
  - split; [intros [<-|[]]; left; reflexivity | intros [->|[]]; left; reflexivity].
  - destruct (String_as_OT.compare k k') eqn:E; simpl.
    + apply compare_Eq_eq in E. subst k'. split; [tauto|].
      intros [->|H]; [left; reflexivity | exact H].
    + split; [intros [<-|H]; [left; reflexivity | right; exact H]|].
      intros [->|H]; [left; reflexivity | right; exact H].
    + rewrite IH. split; [tauto|]. tauto.
Qed.

Lemma insert_symbol_sorted (k : string) (ks : list string) :
  StronglySorted String_as_OT.lt ks ->
  StronglySorted String_as_OT.lt (insert_symbol k ks).
Proof.
  induction 1 as [|k' ks Hs IH Hall]; simpl.
  - constructor; constructor.
  - destruct (String_as_OT.compare k k') eqn:E.
    + constructor; assumption.
    + constructor; [constructor; assumption|].
      constructor; [exact E|].
      eapply List.Forall_impl; [|exact Hall]. intros q Hq.
      exact (StrictOrder_Transitive _ _ _ E Hq).
    + constructor; [exact IH|].
      rewrite List.Forall_forall. intros x Hx.
      apply insert_symbol_In in Hx. destruct Hx as [->|Hx].
      * exact (compare_Gt_lt _ _ E).
      * rewrite List.Forall_forall in Hall. exact (Hall x Hx).
Qed.

Lemma instruments_sorted (d : list row) :
  StronglySorted String_as_OT.lt (instruments d).
Proof.
  induction d as [|r d IH]; simpl; [constructor|].
  apply insert_symbol_sorted, IH.
Qed.

Lemma instruments_In (d : list row) (k : string) :
  In k (instruments d) <-> rows_of k d <> [].
Proof.
  rewrite rows_of_nonempty. induction d as [|r d IH]; simpl.
  - split; [tauto | intros [r [[] _]]].
  - rewrite insert_symbol_In, IH. split.
    + intros [->|[r' [Hin Hk]]].
      * exists r. split; [left|]; reflexivity.
      * exists r'. split; [right; exact Hin | exact Hk].
    + intros [r' [[<-|Hin] Hk]].
      * left. symmetry. exact Hk.
      * right. exists r'. split; assumption.
Qed.

Lemma key_sorted_graph {V : Type} (f : string -> V) (ks : list string) :
  StronglySorted String_as_OT.lt ks -> key_sorted (map (fun k => (k, f k)) ks).
Proof.
  induction 1 as [|k ks Hs IH Hall]; simpl; constructor; [exact IH|].
  rewrite List.Forall_forall in *. intros q Hq.
  apply in_map_iff in Hq. destruct Hq as [k' [<- Hk']].
  exact (Hall k' Hk').
Qed.

Lemma lookup_key_graph {V : Type} (f : string -> V) (ks : list string)
  (k : string) :
  (In k ks -> lookup_key k (map (fun k => (k, f k)) ks) = Some (f k))
  /\ (~ In k ks -> lookup_key k (map (fun k => (k, f k)) ks) = None).
Proof.
  induction ks as [|k' ks [IH1 IH2]]; simpl.
  - split; [intros [] | reflexivity].
  - destruct (String.eqb_spec k k') as [->|Hne].
    + split; [reflexivity | intros H; exfalso; apply H; left; reflexivity].
    + split.
      * intros [E|Hin]; [congruence | exact (IH1 Hin)].
      * intros H. apply IH2. intros Hin. apply H. right. exact Hin.
Qed.

Lemma vwap_frame_as_map (d : list row) :
  vwap_frame d
  = map (fun p => (fst p,
                   (fun st : Z * float =>
                      Float64.round2 (snd st / Float64.of_Z (fst st))%float)
                     (snd p)))
      (groupby_sum d).
Proof.
  unfold vwap_frame. apply map_ext. intros [k [s t]]. reflexivity.
Qed.

Lemma vwap_frame_sorted (d : list row) : key_sorted (vwap_frame d).
Proof.
  rewrite vwap_frame_as_map.
  exact (key_sorted_map
           (fun st : Z * float =>
              Float64.round2 (snd st / Float64.of_Z (fst st))%float)
           _ (groupby_sum_sorted d)).
Qed.

Lemma vwap_frame_lookup (d : list row) (k : string) :
  lookup_key k (vwap_frame d)
  = match rows_of k d with
    | [] => None
    | _ :: _ => Some (vwap_int64 k d)
    end.
Proof.
  rewrite vwap_frame_as_map.
  rewrite (lookup_key_map
             (fun st : Z * float =>
                Float64.round2 (snd st / Float64.of_Z (fst st))%float)).
  rewrite groupby_sum_lookup.
  unfold vwap_int64. destruct (rows_of k d); reflexivity.
Qed.

(** What [groupby], [sum], the division and [round] build line by line is
    the table of the per-instrument VWAPs. *)
Lemma vwap_frame_table (d : list row) : vwap_frame d = vwap_table d.
Proof.
  apply key_sorted_ext.
  - apply vwap_frame_sorted.
  - apply key_sorted_graph, instruments_sorted.
  - intros k. rewrite vwap_frame_lookup. unfold vwap_table.
    destruct (lookup_key_graph (fun k => vwap_int64 k d) (instruments d) k)
      as [H1 H2].
    destruct (rows_of k d) as [|r l] eqn:E.
    + symmetry. apply H2. rewrite instruments_In, E. intros H. apply H.
      reflexivity.
    + symmetry. apply H1. rewrite instruments_In, E. discriminate.
Qed.

(** ** The methods, step by step *)

Lemma read_eq (n : N) (self : Parser) :
  read n self
  = (Normal (firstn (N.to_nat n) (binary_data self)),
     with_binary_data self
       (skipn (N.to_nat n) (binary_data self))).
Proof. reflexivity. Qed.

Lemma with_binary_data_same (self : Parser) :
  with_binary_data self (binary_data self) = self.
Proof. destruct self; reflexivity. Qed.

Lemma parse_cases (msg : bytes) :
  (length msg = 43%nat /\ exists ts r, parse msg = Normal (ts, r))
  \/ (length msg <> 43%nat /\ parse msg = Raised struct_error).
Proof.
  unfold parse, unpack_trade.
  destruct (Nat.eqb_spec (length msg) 43) as [E|E].
  - left. split; [exact E|]. eexists. eexists. reflexivity.
  - right. split; [exact E | reflexivity].
Qed.

Lemma process_trade_Normal (utcoffset : Z) (msg : bytes) (ts : Z)
  (parsed : row) (self : Parser) :
  parse msg = Normal (ts, parsed) ->
  process_trade utcoffset msg self
  = (Normal tt, after_trade (hour_of utcoffset ts) parsed self).
Proof.
  intros Hp. unfold process_trade, bind, lift, get, after_trade, hour_of.
  rewrite Hp. simpl.
  destruct (currentHour self) as [cur|] eqn:Ec; simpl.
  - destruct ((cur + 1) mod 24 =? int_of_str (convert_time utcoffset ts));
      unfold ret, append_data, with_bucket; simpl; rewrite ?Ec; reflexivity.
  - reflexivity.
Qed.

Lemma process_trade_Raised (utcoffset : Z) (msg : bytes) (e : exn)
  (self : Parser) :
  parse msg = Raised e -> process_trade utcoffset msg self = (Raised e, self).
Proof.
  intros Hp. unfold process_trade, bind, lift. rewrite Hp. reflexivity.
Qed.

Lemma after_trade_binary_data (hour : Z) (parsed : row) (self : Parser) :
  binary_data (after_trade hour parsed self) = binary_data self.
Proof.
  unfold after_trade. destruct (currentHour self) as [cur|]; [|reflexivity].
  destruct ((cur + 1) mod 24 =? hour); reflexivity.
Qed.

(** A tag that the table does not hold: the [KeyError] is swallowed before a
    single byte is read. *)
Lemma check_unknown (utcoffset : Z) (msg_type : bytes) (self : Parser) :
  msg_size_table self !! msg_type = None ->
  check_for_trade_msg utcoffset msg_type self = (Normal tt, self).
Proof.
  intros H. unfold check_for_trade_msg, try_except, bind, table_getitem.
  rewrite H. reflexivity.
Qed.

(** A tag of the table other than [P]: the body is read and dropped. *)
Lemma check_skip (utcoffset : Z) (msg_type : bytes) (n : N) (self : Parser) :
  msg_size_table self !! msg_type = Some n ->
  msg_type <> Bytes.lit "P" ->
  check_for_trade_msg utcoffset msg_type self
  = (Normal tt,
     with_binary_data self
       (skipn (N.to_nat n) (binary_data self))).
Proof.
  intros H Hne. unfold check_for_trade_msg, try_except, bind, table_getitem.
  rewrite H, read_eq.
  destruct (decide (msg_type = Bytes.lit "P")); [contradiction|reflexivity].
Qed.

(** The tag [P]: the body goes to [process_trade], whose [struct.error] is
    not caught. *)
Lemma check_trade (utcoffset : Z) (n : N) (self : Parser) :
  msg_size_table self !! Bytes.lit "P" = Some n ->
  check_for_trade_msg utcoffset (Bytes.lit "P") self
  = process_trade utcoffset
      (firstn (N.to_nat n) (binary_data self))
      (with_binary_data self
         (skipn (N.to_nat n) (binary_data self))).
Proof.
  intros H. unfold check_for_trade_msg, try_except, bind, table_getitem.
  rewrite H, read_eq.
  destruct (decide (Bytes.lit "P" = Bytes.lit "P")); [|contradiction].
  set (msg := firstn _ _). set (self' := with_binary_data _ _).
  destruct (parse_cases msg) as [[_ [ts [r Hp]]]|[_ Hp]].
  - rewrite (process_trade_Normal _ _ _ _ _ Hp). reflexivity.
  - rewrite (process_trade_Raised _ _ _ _ Hp). reflexivity.
Qed.

(** Name the outcome and the object that the goal asks for, and which of
    the two outcomes it is. *)
Ltac ends_normally :=
  eexists; eexists; split; [reflexivity|]; split; [left; reflexivity|].
Ltac ends_raised :=
  eexists; eexists; split; [reflexivity|]; split; [right; reflexivity|].

(** [check_for_trade_msg] ends normally or with [struct.error], and leaves a
    suffix of the bytes it found. *)
Lemma check_outcome (utcoffset : Z) (msg_type : bytes) (self : Parser) :
  exists o self',
    check_for_trade_msg utcoffset msg_type self = (o, self')
    /\ (o = Normal tt \/ o = Raised struct_error)
    /\ exists k, binary_data self' = skipn k (binary_data self).
Proof.
  destruct (msg_size_table self !! msg_type) as [n|] eqn:Et.
  - destruct (decide (msg_type = Bytes.lit "P")) as [->|Hne].
    + rewrite (check_trade _ _ _ Et).
      set (msg := firstn _ _).
      destruct (parse_cases msg) as [[_ [ts [r Hp]]]|[_ Hp]].
      * rewrite (process_trade_Normal _ _ _ _ _ Hp).
        ends_normally.
        rewrite after_trade_binary_data. eexists. reflexivity.
      * rewrite (process_trade_Raised _ _ _ _ Hp).
        ends_raised.
        eexists. reflexivity.
    + rewrite (check_skip _ _ _ _ Et Hne).
      ends_normally.
      eexists. reflexivity.
  - rewrite (check_unknown _ _ _ Et).
    ends_normally.
    exists 0%nat. reflexivity.
Qed.

(** ** The read loop *)

Lemma skipn_length_le (k : nat) (bs : bytes) :
  (length (skipn k bs) <= length bs)%nat.
Proof. rewrite length_skipn. lia. Qed.

(** The loop does not depend on its budget once the budget exceeds the
    number of bytes left. *)
Lemma while_fuel (utcoffset : Z) (f1 : nat) :
  forall (f2 : nat) (msg_type : bytes) (self : Parser),
    (msg_type = [] \/ (length (binary_data self) < f1)%nat) ->
    (msg_type = [] \/ (length (binary_data self) < f2)%nat) ->
    while_msg_type f1 utcoffset msg_type self
    = while_msg_type f2 utcoffset msg_type self.
Proof.
  induction f1 as [|f1 IH]; intros f2 msg_type self H1 H2.
  - destruct H1 as [->|H1]; [|lia]. destruct f2; reflexivity.
  - destruct msg_type as [|b mt]; [destruct f2; reflexivity|].
    destruct H1 as [H1|H1]; [discriminate|].
    destruct H2 as [H2|H2]; [discriminate|].
    destruct f2 as [|f2]; [lia|].
    cbn [while_msg_type]. unfold bind.
    destruct (check_outcome utcoffset (b :: mt) self)
      as [o [self1 [E [Ho [k Hk]]]]].
    rewrite E. destruct Ho as [->| ->]; [|reflexivity].
    unfold read_binary_msg_type. rewrite read_eq.
    pose proof (skipn_length_le k (binary_data self)) as Hle.
    rewrite <- Hk in Hle.
    destruct (binary_data self1) as [|b1 bs1] eqn:Eb.
    + simpl. destruct f1, f2; reflexivity.
    + simpl in Hle. apply IH; right; simpl; rewrite skipn_O; lia.
Qed.

(** At the end of the file the loop is over. *)
Lemma read_loop_nil (utcoffset : Z) (self : Parser) :
  binary_data self = [] -> read_loop utcoffset self = (Normal tt, self).
Proof.
  intros H. unfold read_loop, bind, get, read_binary_msg_type.
  rewrite read_eq, H. simpl.
  rewrite <- H, with_binary_data_same. reflexivity.
Qed.

(** A turn of the loop: the byte read is the type tag handed to
    [check_for_trade_msg], and the loop goes on behind what that consumed. *)
Lemma read_loop_cons (utcoffset : Z) (self : Parser) (b : byte) (bs : bytes) :
  binary_data self = b :: bs ->
  read_loop utcoffset self
  = (let* _ := check_for_trade_msg utcoffset [b] in read_loop utcoffset)
      (with_binary_data self bs).
Proof.
  intros H. unfold read_loop at 1. unfold bind at 1 2, get.
  unfold read_binary_msg_type. rewrite read_eq, H.
  change (firstn (N.to_nat 1%N) (b :: bs)) with [b].
  change (skipn (N.to_nat 1%N) (b :: bs)) with bs.
  simpl length. cbn [while_msg_type]. unfold bind at 1 3.
  destruct (check_outcome utcoffset [b] (with_binary_data self bs))
    as [o [self1 [E [Ho [k Hk]]]]].
  rewrite E. destruct Ho as [->| ->]; [|reflexivity].
  unfold read_loop, bind, get, read_binary_msg_type. rewrite read_eq.
  pose proof (skipn_length_le k (binary_data (with_binary_data self bs)))
    as Hle.
  rewrite <- Hk in Hle. simpl in Hle.
  destruct (binary_data self1) as [|b1 bs1] eqn:Eb.
  - simpl. destruct (length bs); reflexivity.
  - simpl in Hle. apply while_fuel; right; simpl; rewrite skipn_O; lia.
Qed.

(** The loop always comes to an end, and when it ends normally the file has
    been read to its last byte. *)
Lemma read_loop_total (utcoffset : Z) (n : nat) :
  forall self : Parser,
    (length (binary_data self) <= n)%nat ->
    exists o self',
      read_loop utcoffset self = (o, self')
      /\ ((o = Normal tt /\ binary_data self' = [])
          \/ o = Raised struct_error).
Proof.
  induction n as [|n IH]; intros self Hn.
  - destruct (binary_data self) as [|b bs] eqn:E; [|simpl in Hn; lia].
    rewrite (read_loop_nil _ _ E). eexists. eexists.
    split; [reflexivity|]. left. split; [reflexivity | exact E].
  - destruct (binary_data self) as [|b bs] eqn:E.
    + rewrite (read_loop_nil _ _ E). eexists. eexists.
      split; [reflexivity|]. left. split; [reflexivity | exact E].
    + rewrite (read_loop_cons _ _ _ _ E). unfold bind.
      destruct (check_outcome utcoffset [b] (with_binary_data self bs))
        as [o [self1 [Ec [Ho [k Hk]]]]].
      rewrite Ec. destruct Ho as [->| ->].
      * apply IH.
        pose proof (skipn_length_le k (binary_data (with_binary_data self bs)))
          as Hle.
        rewrite <- Hk in Hle. simpl in Hle, Hn. lia.
      * eexists. eexists. split; [reflexivity|]. right. reflexivity.
Qed.

(** [main] behind a loop that ended normally. *)
Lemma main_after_loop (utcoffset : Z) (self self' : Parser) :
  read_loop utcoffset self = (Normal tt, self') ->
  main utcoffset self
  = (Raised (AttributeError "save_excel"), with_closed self').
Proof.
  intros H. unfold main, bind. rewrite H. reflexivity.
Qed.

(** [main] behind a loop that an exception left. *)
Lemma main_loop_raised (utcoffset : Z) (self self' : Parser) (e : exn) :
  read_loop utcoffset self = (Raised e, self') ->
  main utcoffset self = (Raised e, self').
Proof.
  intros H. unfold main, bind. rewrite H. reflexivity.
Qed.

(** A turn of the loop on a well-formed trade-execution message. *)
Lemma read_loop_trade (utcoffset : Z) (self : Parser) (m rest : bytes)
  (ts : Z) (r : row) :
  binary_data self = Bytes.lit "P" ++ m ++ rest ->
  msg_size_table self !! Bytes.lit "P" = Some 43%N ->
  parse m = Normal (ts, r) ->
  read_loop utcoffset self
  = read_loop utcoffset
      (after_trade (hour_of utcoffset ts) r (with_binary_data self rest)).
Proof.
  intros Hb Ht Hp.
  assert (Hlen : length m = 43%nat).
  { destruct (parse_cases m) as [[H _]|[_ H]]; [exact H | congruence]. }
  change (Bytes.lit "P" ++ m ++ rest) with (x50 :: m ++ rest) in Hb.
  rewrite (read_loop_cons _ _ _ _ Hb).
  change [x50] with (Bytes.lit "P"). unfold bind.
  rewrite (check_trade utcoffset 43 (with_binary_data self (m ++ rest)) Ht).
  change (binary_data (with_binary_data self (m ++ rest))) with (m ++ rest).
  change (N.to_nat 43%N) with 43%nat.
  rewrite <- Hlen, take_app_length, drop_app_length.
  rewrite (process_trade_Normal _ _ _ _ _ Hp). reflexivity.
Qed.

(** ** Files of trade-execution messages *)

Lemma trade_stream_cons (m : bytes) (msgs : list bytes) :
  trade_stream (m :: msgs) = Bytes.lit "P" ++ m ++ trade_stream msgs.
Proof. reflexivity. Qed.

Lemma after_trade_with_binary_data (hour : Z) (r : row) (self : Parser)
  (bs bs' : bytes) :
  with_binary_data (after_trade hour r (with_binary_data self bs)) bs'
  = after_trade hour r (with_binary_data self bs').
Proof.
  unfold after_trade. simpl. destruct (currentHour self) as [cur|].
  - destruct ((cur + 1) mod 24 =? hour); reflexivity.
  - reflexivity.
Qed.

Lemma after_trade_table (hour : Z) (r : row) (self : Parser) :
  msg_size_table (after_trade hour r self) = msg_size_table self.
Proof.
  unfold after_trade. destruct (currentHour self) as [cur|].
  - destruct ((cur + 1) mod 24 =? hour); reflexivity.
  - reflexivity.
Qed.

(** On a file of well-formed trade-execution messages the loop ends normally
    and has handed each body to [process_trade] in turn. *)
Lemma read_loop_trades (utcoffset : Z) (msgs : list bytes) :
  forall self : Parser,
    binary_data self = trade_stream msgs ->
    msg_size_table self !! Bytes.lit "P" = Some 43%N ->
    Forall (fun m => length m = 43%nat) msgs ->
    read_loop utcoffset self
    = (Normal tt,
       fold_left (trade_step utcoffset) msgs (with_binary_data self [])).
Proof.
  induction msgs as [|m msgs IH]; intros self Hb Ht Hall.
  - rewrite (read_loop_nil _ _ Hb). simpl.
    change [] with (trade_stream []). rewrite <- Hb, with_binary_data_same.
    reflexivity.
  - inversion Hall as [|? ? Hm Hall']; subst.
    destruct (parse_cases m) as [[_ [ts [r Hp]]]|[H _]]; [|contradiction].
    rewrite trade_stream_cons in Hb.
    rewrite (read_loop_trade _ _ _ _ _ _ Hb Ht Hp).
    rewrite IH; [| | |exact Hall'].
    + rewrite after_trade_with_binary_data. cbn [fold_left].
      assert (E : trade_step utcoffset (with_binary_data self []) m
                  = after_trade (hour_of utcoffset ts) r
                      (with_binary_data self []))
        by (unfold trade_step; rewrite Hp; reflexivity).
      rewrite E. reflexivity.
    + apply after_trade_binary_data.
    + rewrite after_trade_table. exact Ht.
Qed.

Lemma next_hour_neq (h : Z) : ((h + 1) mod 24 =? h) = false.
Proof.
  apply Z.eqb_neq. intros E.
  pose proof (Z.mod_pos_bound (h + 1) 24 ltac:(lia)) as Hb.
  pose proof (Z.div_mod (h + 1) 24 ltac:(lia)) as Hd.
  lia.
Qed.

(** Records of one hour only pile up in the bucket: nothing is reported. *)
Lemma single_hour_fold (utcoffset h : Z) (msgs : list bytes) :
  forall self : Parser,
    (currentHour self = None \/ currentHour self = Some h) ->
    Forall (fun m => exists ts r,
                parse m = Normal (ts, r) /\ hour_of utcoffset ts = h) msgs ->
    reports (fold_left (trade_step utcoffset) msgs self) = reports self
    /\ data (fold_left (trade_step utcoffset) msgs self)
       = data self ++ parsed_rows msgs
    /\ (msgs <> [] ->
        currentHour (fold_left (trade_step utcoffset) msgs self) = Some h).
Proof.
  induction msgs as [|m msgs IH]; intros self Hc Hall.
  - simpl. rewrite app_nil_r. repeat split. congruence.
  - inversion Hall as [|? ? [ts [r [Hp Hh]]] Hall']; subst.
    cbn [fold_left].
    assert (E : trade_step utcoffset self m
                = with_bucket self (Some (hour_of utcoffset ts))
                    (data self ++ [r]) (reports self)).
    { unfold trade_step. rewrite Hp. unfold after_trade.
      destruct Hc as [-> | ->]; [reflexivity|].
      rewrite next_hour_neq. reflexivity. }
    rewrite E.
    destruct (IH (with_bucket self (Some (hour_of utcoffset ts))
                    (data self ++ [r]) (reports self)))
      as [Hr [Hd Hcur]]; [right; reflexivity | exact Hall' |].
    split; [exact Hr|]. split.
    + rewrite Hd. unfold parsed_rows. cbn [flat_map]. rewrite Hp.
      cbn [data with_bucket]. rewrite <- app_assoc. reflexivity.
    + intros _. destruct msgs as [|m' msgs']; [reflexivity|].
      apply Hcur. discriminate.
Qed.

(** ** Reordering the records of a bucket *)

Lemma rows_of_Permutation (k : string) (d d' : list row) :
  Permutation d d' -> Permutation (rows_of k d) (rows_of k d').
Proof.
  unfold rows_of. induction 1 as [|r l l' _ IH|r r' l|l l' l'' _ IH1 _ IH2].
  - constructor.
  - simpl. destruct (String.eqb (Stock r) k); [constructor|]; exact IH.
  - simpl. destruct (String.eqb (Stock r) k), (String.eqb (Stock r') k);
      try reflexivity. constructor.
  - etransitivity; eassumption.
Qed.

Lemma sum_shares_acc (l : list row) (a : Z) :
  fold_left (fun a r => a + Shares r) l a = a + sum_shares l.
Proof.
  unfold sum_shares. revert a.
  induction l as [|r l IH]; intros a; simpl; [lia|].
  rewrite (IH (a + Shares r)), (IH (0 + Shares r)). lia.
Qed.

Lemma sum_shares_cons (r : row) (l : list row) :
  sum_shares (r :: l) = Shares r + sum_shares l.
Proof.
  unfold sum_shares at 1. simpl. rewrite sum_shares_acc. lia.
Qed.

Lemma sum_shares_Permutation (l l' : list row) :
  Permutation l l' -> sum_shares l = sum_shares l'.
Proof.
  induction 1 as [|r l l' _ IH|r r' l|l l' l'' _ IH1 _ IH2].
  - reflexivity.
  - rewrite !sum_shares_cons, IH. reflexivity.
  - rewrite !sum_shares_cons. lia.
  - congruence.
Qed.

(** The groups of two orderings of the same records, up to the float sum. *)
Lemma groupby_sum_lookup_Permutation (d d' : list row) (k : string) :
  Permutation d d' ->
  option_map fst (lookup_key k (groupby_sum d))
  = option_map fst (lookup_key k (groupby_sum d')).
Proof.
  intros Hperm. rewrite !groupby_sum_lookup.
  pose proof (rows_of_Permutation k d d' Hperm) as Hk.
  rewrite (sum_shares_Permutation _ _ Hk).
  destruct (rows_of k d) as [|r l], (rows_of k d') as [|r' l'];
    try reflexivity.
  - apply Permutation_nil in Hk. discriminate.
  - symmetry in Hk. apply Permutation_nil in Hk. discriminate.
Qed.

(** ** The hour and the shares of a decoded record *)

(** The two digits of [strftime('%H')] read back as the hour. *)
Lemma int_of_str_strftime_H (hour : Z) :
  0 <= hour < 24 -> int_of_str (strftime_H hour) = hour.
Proof.
  intros H.
  assert (E : hour = 0 \/ hour = 1 \/ hour = 2 \/ hour = 3 \/ hour = 4
              \/ hour = 5 \/ hour = 6 \/ hour = 7 \/ hour = 8 \/ hour = 9
              \/ hour = 10 \/ hour = 11 \/ hour = 12 \/ hour = 13
              \/ hour = 14 \/ hour = 15 \/ hour = 16 \/ hour = 17
              \/ hour = 18 \/ hour = 19 \/ hour = 20 \/ hour = 21
              \/ hour = 22 \/ hour = 23) by lia.
  repeat (destruct E as [->|E]; [reflexivity|]). subst hour. reflexivity.
Qed.

(** The hour of [process_trade] is the hour field of the local time. *)
Lemma hour_of_fromtimestamp (utcoffset timestamp : Z) :
  hour_of utcoffset timestamp
  = fromtimestamp_hour utcoffset
      (Float64.of_Z timestamp / 1000000000)%float.
Proof.
  unfold hour_of, convert_time. apply int_of_str_strftime_H.
  unfold fromtimestamp_hour. apply Z.mod_pos_bound. lia.
Qed.

Lemma hour_of_range (utcoffset timestamp : Z) :
  0 <= hour_of utcoffset timestamp < 24.
Proof.
  rewrite hour_of_fromtimestamp. unfold fromtimestamp_hour.
  apply Z.mod_pos_bound. lia.
Qed.

Lemma to_Z_range (b : byte) : 0 <= Bytes.to_Z b < 256.
Proof.
  unfold Bytes.to_Z. pose proof (Byte.to_N_bounded b) as H. lia.
Qed.

Lemma be_uint_fold_range (bs : bytes) :
  forall acc : Z,
    0 <= acc ->
    0 <= fold_left (fun acc b => acc * 256 + Bytes.to_Z b) bs acc
    < (acc + 1) * 256 ^ Z.of_nat (length bs).
Proof.
  induction bs as [|b bs IH]; intros acc Hacc.
  - simpl. lia.
  - cbn [fold_left length]. pose proof (to_Z_range b) as Hb.
    destruct (IH (acc * 256 + Bytes.to_Z b) ltac:(lia)) as [H0 H1].
    split; [exact H0|].
    rewrite Nat2Z.inj_succ, Z.pow_succ_r by lia.
    assert (0 < 256 ^ Z.of_nat (length bs)) by (apply Z.pow_pos_nonneg; lia).
    nia.
Qed.

(** An unsigned field of [n] bytes is below [256 ^ n]. *)
Lemma be_uint_range (bs : bytes) :
  0 <= Bytes.be_uint bs < 256 ^ Z.of_nat (length bs).
Proof.
  pose proof (be_uint_fold_range bs 0 ltac:(lia)) as H.
  unfold Bytes.be_uint. lia.
Qed.

(** The shares of a decoded record are an unsigned 32-bit number. *)
Lemma parse_shares_range (msg : bytes) (ts : Z) (r : row) :
  parse msg = Normal (ts, r) -> 0 <= Shares r < 2 ^ 32.
Proof.
  unfold parse, unpack_trade.
  destruct (Nat.eqb_spec (length msg) 43) as [E|E]; [|discriminate].
  intros H. inversion H; subst. cbn [Shares temp4].
  pose proof (be_uint_range (slice 19 4 msg)) as Hr.
  assert (Hl : (length (slice 19 4 msg) <= 4)%nat)
    by (unfold slice; rewrite length_firstn; lia).
  assert (256 ^ Z.of_nat (length (slice 19 4 msg)) <= 256 ^ 4)
    by (apply Z.pow_le_mono_r; lia).
  change (2 ^ 32) with (256 ^ 4). lia.
Qed.

Lemma sum_shares_bound (l : list row) :
  Forall (fun r => 0 <= Shares r < 2 ^ 32) l ->
  0 <= sum_shares l <= Z.of_nat (length l) * (2 ^ 32 - 1).
Proof.
  induction 1 as [|r l Hr _ IH].
  - unfold sum_shares. simpl. lia.
  - rewrite sum_shares_cons. cbn [length]. lia.
Qed.

(** A bucket of at most [2 ^ 31] decoded records does not overflow the int64
    share total of any instrument. *)
Lemma int64_range_bucket (k : string) (d : list row) :
  Forall (fun r => 0 <= Shares r < 2 ^ 32) d ->
  Z.of_nat (length d) <= 2 ^ 31 ->
  int64_range (sum_shares (rows_of k d)).
Proof.
  intros Hall Hlen.
  assert (Hf : Forall (fun r => 0 <= Shares r < 2 ^ 32) (rows_of k d)).
  { rewrite List.Forall_forall in *. intros r Hr.
    apply filter_In in Hr. exact (Hall r (proj1 Hr)). }
  pose proof (sum_shares_bound _ Hf) as Hb.
  assert (Hl : (length (rows_of k d) <= length d)%nat)
    by apply List.filter_length_le.
  unfold int64_range. nia.
Qed.

(** ** The properties C1 to C10 *)

(** C1 as stated fails: the byte 0 is not a key of the driver's table, the
    loop ends normally, and the trade behind that byte has been framed and
    put in the bucket. *)
Lemma C1_unknown_tag_counterexample :
  NASDAQ_MSG_SIZES !! [x00] = None
  /\ fst (read_loop 0 (init NASDAQ_MSG_SIZES unknown_tag_file)) = Normal tt
  /\ data (snd (read_loop 0 (init NASDAQ_MSG_SIZES unknown_tag_file)))
     = [mk_row "AAPL" 100 10].
Proof. vm_compute. repeat split. Qed.

(** C1, as the code has it. When the byte read as a type tag is not a key of
    the table, [check_for_trade_msg] swallows the [KeyError]: it signals
    nothing, reads no byte and changes nothing, and the loop goes on with
    the next byte of the file as a type tag. *)
Theorem C1_unknown_tag_is_skipped (utcoffset : Z) (self : Parser) (b : byte)
  (bs : bytes) :
  binary_data self = b :: bs ->
  msg_size_table self !! [b] = None ->
  check_for_trade_msg utcoffset [b] (with_binary_data self bs)
  = (Normal tt, with_binary_data self bs)
  /\ read_loop utcoffset self = read_loop utcoffset (with_binary_data self bs).
Proof.
  intros Hb Ht.
  assert (Hc : check_for_trade_msg utcoffset [b] (with_binary_data self bs)
               = (Normal tt, with_binary_data self bs))
    by (apply check_unknown; exact Ht).
  split; [exact Hc|].
  rewrite (read_loop_cons _ _ _ _ Hb). unfold bind. rewrite Hc. reflexivity.
Qed.

Lemma C1_unknown_tag_is_skipped_witness :
  check_for_trade_msg 0 [x00]
    (with_binary_data (init NASDAQ_MSG_SIZES unknown_tag_file)
       (trade_stream [aapl_100]))
  = (Normal tt,
     with_binary_data (init NASDAQ_MSG_SIZES unknown_tag_file)
       (trade_stream [aapl_100]))
  /\ read_loop 0 (init NASDAQ_MSG_SIZES unknown_tag_file)
     = read_loop 0
         (with_binary_data (init NASDAQ_MSG_SIZES unknown_tag_file)
            (trade_stream [aapl_100])).
Proof.
  apply (C1_unknown_tag_is_skipped 0 (init NASDAQ_MSG_SIZES unknown_tag_file)
           x00 (trade_stream [aapl_100])).
  - reflexivity.
  - vm_compute. reflexivity.
Defined.

(** C2 fails on the code when the quotient is taken as the number it is.
    Three one-share trades of X in hour 9, at 0.1820, 0.0660 and 0.0370,
    have the VWAP 0.2850 / 3 = 0.095, which is 0.10 to 2 decimal places
    (half to even, as half up); the run reports 0.09, because 100 times the
    float64 quotient falls below 9.5. *)
Lemma C2_exact_vwap_counterexample :
  parsed_rows [x_1820; x_660; x_370]
  = map (trade_row "X") [(1, 1820); (1, 660); (1, 370)]
  /\ exact_vwap_cents [(1, 1820); (1, 660); (1, 370)] = 10
  /\ reports
       (snd (main 0
               (init NASDAQ_MSG_SIZES
                  (trade_stream [x_1820; x_660; x_370; msft_10h]))))
     = [(9, [("X"%string, 0.09%float)])]
  /\ (0.09 =? Float64.of_Z 10 / 100)%float = false
  /\ (sum_notional (parsed_rows [x_1820; x_660; x_370]) / 3 * 100 <? 9.5)%float
     = true.
Proof. vm_compute. repeat split. Qed.

(** C2, as the code has it: in binary64. The VWAP frame of a flush has one
    line per instrument with records in the bucket, and, the share total
    fitting its int64 column, the value of the line is
    [sum(shares * price) / sum(shares)] over the records of the instrument,
    with float64 products, their float64 sum taken in arrival order by
    compensated summation, a float64 division, and the rounding to 2
    decimals of [round]. On a file of two AAPL trades of hour 9, 100 shares
    at 10.0000 and 200 shares at 11.0000, and a trade of hour 10, the run
    reports [("AAPL", 10.67)] for hour 9 and nothing else. *)
Theorem C2_vwap_per_instrument :
  (forall (d : list row) (k : string) (v : float),
      int64_range (sum_shares (rows_of k d)) ->
      (In (k, v) (vwap_frame d) <-> rows_of k d <> [] /\ v = vwap_of k d))
  /\ (forall (table : gmap bytes N) (m3 : bytes) (ts3 : Z) (r3 : row),
         table !! Bytes.lit "P" = Some 43%N ->
         parse m3 = Normal (ts3, r3) ->
         hour_of 0 ts3 = 10 ->
         reports
           (snd (main 0 (init table (trade_stream [aapl_100; aapl_200; m3]))))
         = [(9, [("AAPL"%string, 10.67%float)])]).
Proof.
  split.
  - intros d k v Hr. rewrite vwap_frame_In. unfold vwap_of.
    rewrite (wrap64_small _ Hr). reflexivity.
  - intros table m3 ts3 r3 Ht Hp Hh.
    assert (Hlen : length m3 = 43%nat).
    { destruct (parse_cases m3) as [[H _]|[_ H]]; [exact H | congruence]. }
    assert (Hl : read_loop 0 (init table (trade_stream [aapl_100; aapl_200; m3]))
                 = (Normal tt,
                    fold_left (trade_step 0) [aapl_100; aapl_200; m3]
                      (with_binary_data
                         (init table
                            (trade_stream [aapl_100; aapl_200; m3])) []))).
    { apply read_loop_trades; [reflexivity | exact Ht |].
      repeat constructor. exact Hlen. }
    rewrite (main_after_loop _ _ _ Hl).
    cbn [fold_left]. unfold trade_step at 1. rewrite Hp, Hh.
    set (s2 := trade_step 0 (trade_step 0 _ aapl_100) aapl_200).
    assert (Hs2 : currentHour s2 = Some 9
                  /\ vwap_frame (data s2) = [("AAPL"%string, 10.67%float)]
                  /\ reports s2 = []).
    { subst s2. vm_compute. repeat split. }
    destruct Hs2 as [Hc [Hv Hr]]. clearbody s2.
    unfold after_trade. rewrite Hc.
    replace ((9 + 1) mod 24 =? 10) with true by reflexivity.
    unfold with_closed, with_bucket. cbn [snd reports].
    rewrite Hv, Hr. reflexivity.
Qed.

(** The worked example of C2, on the records and on a whole file. *)
Lemma C2_vwap_per_instrument_witness :
  In ("AAPL"%string, 10.67%float)
    (vwap_frame [mk_row "AAPL" 100 10; mk_row "AAPL" 200 11])
  /\ reports
       (snd (main 0
               (init NASDAQ_MSG_SIZES
                  (trade_stream [aapl_100; aapl_200; msft_10h]))))
     = [(9, [("AAPL"%string, 10.67%float)])].
Proof.
  split.
  - apply (proj1 C2_vwap_per_instrument
             [mk_row "AAPL" 100 10; mk_row "AAPL" 200 11] "AAPL"%string).
    + vm_compute. split; [discriminate | reflexivity].
    + split; [discriminate | vm_compute; reflexivity].
  - apply (proj2 C2_vwap_per_instrument NASDAQ_MSG_SIZES msft_10h
             (10 * ns_per_hour) (mk_row "MSFT" 5 100)).
    + vm_compute. reflexivity.
    + vm_compute. reflexivity.
    + vm_compute. reflexivity.
Defined.

(** C3 fails on the code. The hour comes from [datetime.fromtimestamp], which
    shows local time: half past nine is hour 4 on a machine five hours west
    of UTC and hour 9 on a machine at UTC, where the integer division gives
    9; on a machine five and a half hours east of UTC, 09:10 and 09:40 fall
    in two different hours. The seconds are also a float rounded to
    microseconds: the last nanosecond of hour 0 is given hour 1 at UTC. *)
Theorem C3_hour_depends_on_time_zone :
  hour_of (-18000) 34200000000000 = 4
  /\ hour_of 0 34200000000000 = 9
  /\ 34200000000000 / ns_per_hour = 9
  /\ hour_of 19800 33000000000000 = 14
  /\ hour_of 19800 34800000000000 = 15
  /\ 33000000000000 / ns_per_hour = 34800000000000 / ns_per_hour
  /\ hour_of 0 3599999999999 = 1
  /\ 3599999999999 / ns_per_hour = 0.
Proof. vm_compute. repeat split. Qed.

(** C4. In a state with an open bucket of hour [cur], a record whose hour is
    [(cur + 1) mod 24] makes [process_trade] report, under the hour [cur],
    the table that has a line for each instrument of the bucket with the
    VWAP over the records of that instrument, and open the bucket of the new
    hour with that record alone. A record of hour 0 behind a bucket of hour
    23 is such a record. *)
Theorem C4_flush_on_next_hour (utcoffset : Z) (msg : bytes) (ts : Z)
  (parsed : row) (self : Parser) (cur : Z) :
  parse msg = Normal (ts, parsed) ->
  currentHour self = Some cur ->
  (hour_of utcoffset ts = (cur + 1) mod 24
   \/ (cur = 23 /\ hour_of utcoffset ts = 0)) ->
  process_trade utcoffset msg self
  = (Normal tt,
     with_bucket self (Some (hour_of utcoffset ts)) [parsed]
       (reports self ++ [(cur, vwap_table (data self))])).
Proof.
  intros Hp Hc Hh. rewrite (process_trade_Normal _ _ _ _ _ Hp).
  unfold after_trade. rewrite Hc.
  assert (E : ((cur + 1) mod 24 =? hour_of utcoffset ts) = true).
  { apply Z.eqb_eq. destruct Hh as [->|[-> ->]]; reflexivity. }
  rewrite E, vwap_frame_table. reflexivity.
Qed.

Lemma C4_flush_on_next_hour_witness :
  vwap_table [mk_row "MSFT" 5 100; mk_row "AAPL" 100 10; mk_row "AAPL" 200 11]
  = [("AAPL"%string, 10.67%float); ("MSFT"%string, 100%float)]
  /\ process_trade 0 aapl_midnight
       (with_bucket (init NASDAQ_MSG_SIZES []) (Some 23)
          [mk_row "MSFT" 5 100; mk_row "AAPL" 100 10; mk_row "AAPL" 200 11]
          [])
     = (Normal tt,
        with_bucket
          (with_bucket (init NASDAQ_MSG_SIZES []) (Some 23)
             [mk_row "MSFT" 5 100; mk_row "AAPL" 100 10; mk_row "AAPL" 200 11]
             [])
          (Some (hour_of 0 5)) [mk_row "AAPL" 100 10]
          ([] ++ [(23, vwap_table
                         [mk_row "MSFT" 5 100; mk_row "AAPL" 100 10;
                          mk_row "AAPL" 200 11])])).
Proof.
  split; [vm_compute; reflexivity|].
  apply (C4_flush_on_next_hour 0 aapl_midnight 5 (mk_row "AAPL" 100 10)
           (with_bucket (init NASDAQ_MSG_SIZES []) (Some 23)
              [mk_row "MSFT" 5 100; mk_row "AAPL" 100 10;
               mk_row "AAPL" 200 11] []) 23).
  - vm_compute. reflexivity.
  - reflexivity.
  - right. split; [reflexivity | vm_compute; reflexivity].
Defined.

(** C5. Nothing is reported behind the read loop: the reports, the bucket
    and the current hour at the end of the run are those at the end of the
    loop. On a file of trades of one hour the run ends with every record
    still in the bucket and not a single report. *)
Theorem C5_last_bucket_not_flushed :
  (forall (utcoffset : Z) (self : Parser),
      reports (snd (main utcoffset self))
      = reports (snd (read_loop utcoffset self))
      /\ data (snd (main utcoffset self))
         = data (snd (read_loop utcoffset self))
      /\ currentHour (snd (main utcoffset self))
         = currentHour (snd (read_loop utcoffset self)))
  /\ (forall (utcoffset h : Z) (table : gmap bytes N) (msgs : list bytes),
         table !! Bytes.lit "P" = Some 43%N ->
         msgs <> [] ->
         Forall (fun m => exists ts r,
                     parse m = Normal (ts, r) /\ hour_of utcoffset ts = h)
           msgs ->
         reports (snd (main utcoffset (init table (trade_stream msgs)))) = []
         /\ data (snd (main utcoffset (init table (trade_stream msgs))))
            = parsed_rows msgs
         /\ parsed_rows msgs <> []
         /\ currentHour (snd (main utcoffset (init table (trade_stream msgs))))
            = Some h).
Proof.
  split.
  - intros utcoffset self.
    destruct (read_loop_total utcoffset _ self (Nat.le_refl _))
      as [o [self' [E [[-> _]| ->]]]].
    + rewrite (main_after_loop _ _ _ E), E. repeat split.
    + rewrite (main_loop_raised _ _ _ _ E), E. repeat split.
  - intros utcoffset h table msgs Ht Hne Hall.
    assert (Hlen : Forall (fun m => length m = 43%nat) msgs).
    { eapply List.Forall_impl; [|exact Hall].
      intros m [ts [r [Hp _]]].
      destruct (parse_cases m) as [[H _]|[_ H]]; [exact H | congruence]. }
    rewrite (main_after_loop _ _ _
               (read_loop_trades utcoffset msgs
                  (init table (trade_stream msgs)) eq_refl Ht Hlen)).
    destruct (single_hour_fold utcoffset h msgs
                (with_binary_data (init table (trade_stream msgs)) [])
                (or_introl eq_refl) Hall) as [Hr [Hd Hc]].
    cbn [snd]. unfold with_closed. cbn [reports data currentHour].
    rewrite Hr, Hd. split; [reflexivity|]. split; [reflexivity|].
    split; [|exact (Hc Hne)].
    destruct msgs as [|m msgs']; [congruence|].
    inversion Hall as [|? ? [ts [r [Hp _]]] _]; subst.
    unfold parsed_rows. cbn [flat_map]. rewrite Hp. discriminate.
Qed.

Lemma C5_last_bucket_not_flushed_witness :
  reports
    (snd (main 0 (init NASDAQ_MSG_SIZES (trade_stream [aapl_100; aapl_200]))))
  = []
  /\ data
       (snd (main 0
               (init NASDAQ_MSG_SIZES (trade_stream [aapl_100; aapl_200]))))
     = parsed_rows [aapl_100; aapl_200]
  /\ parsed_rows [aapl_100; aapl_200] <> []
  /\ currentHour
       (snd (main 0
               (init NASDAQ_MSG_SIZES (trade_stream [aapl_100; aapl_200]))))
     = Some 9.
Proof.
  apply (proj2 C5_last_bucket_not_flushed 0 9 NASDAQ_MSG_SIZES
           [aapl_100; aapl_200]).
  - vm_compute. reflexivity.
  - discriminate.
  - constructor.
    + exists (9 * ns_per_hour + 5), (mk_row "AAPL" 100 10).
      vm_compute. split; reflexivity.
    + constructor; [|constructor].
      exists (9 * ns_per_hour + 7), (mk_row "AAPL" 200 11).
      vm_compute. split; reflexivity.
Defined.

(** C6 as stated fails: a bucket whose only trade has no shares is flushed
    with nothing in the way of the division, and the report holds the NaN
    that 0.0 / 0 gives. *)
Lemma C6_division_by_zero_counterexample :
  groupby_sum (parsed_rows [zero_shares_9h]) = [("ZVZZT"%string, (0, 0%float))]
  /\ reports
       (snd (main 0
               (init NASDAQ_MSG_SIZES
                  (trade_stream [zero_shares_9h; msft_10h]))))
     = [(9, [("ZVZZT"%string, nan)])].
Proof. vm_compute. split; reflexivity. Qed.

(** C6, as the code has it. The division of a flush has no guard: for an
    instrument of the bucket whose int64 share total is zero the flush still
    ends normally, and the line it reports for the instrument is the rounded
    quotient of the notional sum by 0.0. *)
Theorem C6_zero_share_group_divides (utcoffset : Z) (msg : bytes) (ts : Z)
  (parsed : row) (self : Parser) (cur : Z) (k : string) :
  parse msg = Normal (ts, parsed) ->
  currentHour self = Some cur ->
  hour_of utcoffset ts = (cur + 1) mod 24 ->
  rows_of k (data self) <> [] ->
  wrap64 (sum_shares (rows_of k (data self))) = 0 ->
  exists self' panda,
    process_trade utcoffset msg self = (Normal tt, self')
    /\ reports self' = reports self ++ [(cur, panda)]
    /\ In (k, Float64.round2 (sum_notional (rows_of k (data self)) / 0)%float)
         panda.
Proof.
  intros Hp Hc Hh Hne Hz.
  rewrite (process_trade_Normal _ _ _ _ _ Hp). unfold after_trade.
  rewrite Hc, Hh, Z.eqb_refl.
  eexists. exists (vwap_frame (data self)).
  split; [reflexivity|]. split; [reflexivity|].
  apply vwap_frame_In. split; [exact Hne|]. rewrite Hz. reflexivity.
Qed.

Lemma C6_zero_share_group_divides_witness :
  exists self' panda,
    process_trade 0 msft_10h
      (with_bucket (init NASDAQ_MSG_SIZES []) (Some 9)
         (parsed_rows [zero_shares_9h]) [])
    = (Normal tt, self')
    /\ reports self' = [] ++ [(9, panda)]
    /\ In ("ZVZZT"%string,
           Float64.round2
             (sum_notional (rows_of "ZVZZT" (parsed_rows [zero_shares_9h]))
              / 0)%float)
         panda.
Proof.
  apply (C6_zero_share_group_divides 0 msft_10h (10 * ns_per_hour)
           (mk_row "MSFT" 5 100)
           (with_bucket (init NASDAQ_MSG_SIZES []) (Some 9)
              (parsed_rows [zero_shares_9h]) []) 9 "ZVZZT"%string).
  - vm_compute. reflexivity.
  - reflexivity.
  - vm_compute. reflexivity.
  - vm_compute. discriminate.
  - vm_compute. reflexivity.
Defined.

(** C7 as stated fails: the exception that ends the run on a file cut inside a
    trade body is [struct.error]; the bucket holds the trade before it. *)
Lemma C7_truncated_body_counterexample :
  fst (main 0 (init NASDAQ_MSG_SIZES truncated_file)) = Raised struct_error
  /\ exn_name struct_error <> "TruncatedStreamError"%string
  /\ data (snd (main 0 (init NASDAQ_MSG_SIZES truncated_file)))
     = [mk_row "AAPL" 100 10].
Proof.
  split; [vm_compute; reflexivity|].
  split; [discriminate | vm_compute; reflexivity].
Qed.

(** C7, as the code has it. When the file ends inside the body of a
    trade-execution message, [struct.unpack] raises [struct.error], which
    nothing catches: the run stops there, and the bucket, the current hour
    and the reports are what they were before the message. *)
Theorem C7_truncated_trade_raises_struct_error (utcoffset : Z)
  (self : Parser) (body : bytes) :
  binary_data self = Bytes.lit "P" ++ body ->
  msg_size_table self !! Bytes.lit "P" = Some 43%N ->
  (length body < 43)%nat ->
  main utcoffset self = (Raised struct_error, with_binary_data self []).
Proof.
  intros Hb Ht Hlen. apply main_loop_raised.
  change (Bytes.lit "P" ++ body) with (x50 :: body) in Hb.
  rewrite (read_loop_cons _ _ _ _ Hb).
  change [x50] with (Bytes.lit "P"). unfold bind.
  rewrite (check_trade utcoffset 43 (with_binary_data self body) Ht).
  change (binary_data (with_binary_data self body)) with body.
  change (N.to_nat 43%N) with 43%nat.
  rewrite firstn_all2, skipn_all2 by lia.
  rewrite (process_trade_Raised _ _ struct_error); [reflexivity|].
  destruct (parse_cases body) as [[H _]|[_ H]]; [lia | exact H].
Qed.

Lemma C7_truncated_trade_raises_struct_error_witness :
  main 0 (init NASDAQ_MSG_SIZES (Bytes.lit "P" ++ firstn 20 aapl_200))
  = (Raised struct_error,
     with_binary_data
       (init NASDAQ_MSG_SIZES (Bytes.lit "P" ++ firstn 20 aapl_200)) []).
Proof.
  apply (C7_truncated_trade_raises_struct_error 0
           (init NASDAQ_MSG_SIZES (Bytes.lit "P" ++ firstn 20 aapl_200))
           (firstn 20 aapl_200)).
  - reflexivity.
  - vm_compute. reflexivity.
  - vm_compute. lia.
Defined.

(** C8. A body of 43 bytes whose symbol field is not valid UTF-8 decodes
    without an exception to a record with the instrument ["N/A"] and with the
    timestamp, the shares and the price of its fields; [process_trade] ends
    normally on it and the record is the last one of the bucket. *)
Theorem C8_undecodable_symbol_sentinel (utcoffset : Z) (msg : bytes)
  (self : Parser) :
  length msg = 43%nat ->
  Bytes.utf8_valid (Bytes.strip (slice 23 8 msg)) = false ->
  let rec :=
    mk_row "N/A" (Bytes.be_uint (slice 19 4 msg))
      (Float64.of_Z (Bytes.be_uint (slice 31 4 msg)) / 10000)%float in
  parse msg = Normal (Bytes.be_uint (slice 4 6 msg), rec)
  /\ exists self',
      process_trade utcoffset msg self = (Normal tt, self')
      /\ exists d, data self' = d ++ [rec].
Proof.
  intros Hlen Hbad rec.
  assert (Hp : parse msg = Normal (Bytes.be_uint (slice 4 6 msg), rec)).
  { unfold parse, unpack_trade. rewrite Hlen. simpl Nat.eqb. cbv iota.
    unfold decode_utf8. cbn [temp5 temp1 temp4 temp6]. rewrite Hbad.
    reflexivity. }
  split; [exact Hp|].
  rewrite (process_trade_Normal _ _ _ _ _ Hp).
  eexists. split; [reflexivity|].
  unfold after_trade. destruct (currentHour self) as [cur|].
  - destruct ((cur + 1) mod 24 =? _).
    + exists []. reflexivity.
    + exists (data self). reflexivity.
  - exists (data self). reflexivity.
Qed.

Lemma C8_undecodable_symbol_sentinel_witness :
  parse bad_symbol
  = Normal (Bytes.be_uint (slice 4 6 bad_symbol),
            mk_row "N/A" (Bytes.be_uint (slice 19 4 bad_symbol))
              (Float64.of_Z (Bytes.be_uint (slice 31 4 bad_symbol)) / 10000)
              %float)
  /\ exists self',
      process_trade 0 bad_symbol (init NASDAQ_MSG_SIZES [])
      = (Normal tt, self')
      /\ exists d,
          data self'
          = d ++ [mk_row "N/A" (Bytes.be_uint (slice 19 4 bad_symbol))
                    (Float64.of_Z (Bytes.be_uint (slice 31 4 bad_symbol))
                     / 10000)%float].
Proof.
  apply (C8_undecodable_symbol_sentinel 0 bad_symbol
           (init NASDAQ_MSG_SIZES [])).
  - vm_compute. reflexivity.
  - vm_compute. reflexivity.
Defined.

(** C9 as stated fails. Three one-share trades of X in hour 9, at 0.0370,
    0.1820 and 0.0660, are reported at 0.1 when they arrive in this order
    and at 0.09 when the first one arrives last: the float sum of the
    notionals depends on the order, and the quotient sits on a rounding
    tie. *)
Lemma C9_reordering_counterexample :
  Permutation [x_370; x_1820; x_660] [x_1820; x_660; x_370]
  /\ hours_of 0 [x_370; x_1820; x_660; msft_10h] = [9; 9; 9; 10]
  /\ reports
       (snd (main 0
               (init NASDAQ_MSG_SIZES
                  (trade_stream ([x_370; x_1820; x_660] ++ [msft_10h])))))
     = [(9, [("X"%string, 0.1%float)])]
  /\ reports
       (snd (main 0
               (init NASDAQ_MSG_SIZES
                  (trade_stream ([x_1820; x_660; x_370] ++ [msft_10h])))))
     = [(9, [("X"%string, 0.09%float)])]
  /\ (0.1 =? 0.09)%float = false.
Proof.
  split.
  - exact (Permutation_cons_append [x_1820; x_660] x_370).
  - vm_compute. repeat split.
Qed.

(** C9, as the code has it. Reordering the records of a bucket changes
    neither the instruments of the VWAP frame, nor their order, nor their
    share totals. An instrument whose own records come in the same order in
    both lists keeps its line; so a reordering that only changes how the
    records of different instruments interleave leaves the whole frame as it
    is. *)
Theorem C9_reordering_keeps_instruments_and_shares (d d' : list row) :
  Permutation d d' ->
  map fst (vwap_frame d) = map fst (vwap_frame d')
  /\ share_totals d = share_totals d'
  /\ (forall k, rows_of k d = rows_of k d' ->
                forall v, In (k, v) (vwap_frame d) <-> In (k, v) (vwap_frame d'))
  /\ ((forall k, rows_of k d = rows_of k d') -> vwap_frame d = vwap_frame d').
Proof.
  intros Hperm.
  assert (Hs : share_totals d = share_totals d').
  { assert (L : forall x k,
               lookup_key k (share_totals x)
               = option_map fst (lookup_key k (groupby_sum x)))
      by (intros x k; exact (lookup_key_map (@fst Z float) _ k)).
    apply key_sorted_ext.
    - exact (key_sorted_map (@fst Z float) _ (groupby_sum_sorted d)).
    - exact (key_sorted_map (@fst Z float) _ (groupby_sum_sorted d')).
    - intros k. rewrite !L.
      apply groupby_sum_lookup_Permutation. exact Hperm. }
  assert (Hk : forall k, rows_of k d = rows_of k d' ->
                         lookup_key k (vwap_frame d)
                         = lookup_key k (vwap_frame d')).
  { intros k E. rewrite !vwap_frame_lookup. unfold vwap_int64.
    rewrite E. reflexivity. }
  split; [|split; [exact Hs|split]].
  - assert (E : forall x, map fst (vwap_frame x) = map fst (share_totals x)).
    { intros x. unfold vwap_frame, share_totals. rewrite !map_map.
      apply map_ext. intros [k' [s t]]. reflexivity. }
    rewrite !E, Hs. reflexivity.
  - intros k E v.
    rewrite (lookup_key_In _ k v (vwap_frame_sorted d)).
    rewrite (lookup_key_In _ k v (vwap_frame_sorted d')).
    rewrite (Hk k E). reflexivity.
  - intros Hn. apply key_sorted_ext; try apply vwap_frame_sorted.
    intros k. exact (Hk k (Hn k)).
Qed.

(** Two instruments whose trades interleave in two ways. *)
Lemma C9_reordering_keeps_instruments_and_shares_witness :
  let d := [mk_row "X" 1 0.182; mk_row "Y" 2 0.5; mk_row "X" 1 0.066;
            mk_row "X" 1 0.037] in
  let d' := [mk_row "Y" 2 0.5; mk_row "X" 1 0.182; mk_row "X" 1 0.066;
             mk_row "X" 1 0.037] in
  (forall k, rows_of k d = rows_of k d')
  /\ map fst (vwap_frame d) = map fst (vwap_frame d')
  /\ share_totals d = share_totals d'
  /\ vwap_frame d = vwap_frame d'.
Proof.
  intros d d'.
  assert (Hr : forall k, rows_of k d = rows_of k d').
  { intros k. unfold rows_of, d, d'. cbn [List.filter Stock].
    destruct (String.eqb_spec "X" k) as [<-|_]; [reflexivity|].
    destruct (String.eqb "Y" k); reflexivity. }
  split; [exact Hr|].
  destruct (C9_reordering_keeps_instruments_and_shares d d')
    as [H1 [H2 [_ H3]]].
  - apply perm_swap.
  - split; [exact H1|]. split; [exact H2|]. exact (H3 Hr).
Defined.

(** C10. The driver never returns: either the loop reads the file to its
    end, and then the driver closes the file and raises [AttributeError] on
    the missing [save_excel], or a [struct.error] has already left the
    loop. *)
Theorem C10_main_raises_AttributeError (utcoffset : Z) (self : Parser) :
  (exists self',
     read_loop utcoffset self = (Normal tt, self')
     /\ binary_data self' = []
     /\ main utcoffset self
        = (Raised (AttributeError "save_excel"), with_closed self')
     /\ closed (with_closed self') = true)
  \/ (exists self',
        read_loop utcoffset self = (Raised struct_error, self')
        /\ main utcoffset self = (Raised struct_error, self')).
Proof.
  destruct (read_loop_total utcoffset _ self (Nat.le_refl _))
    as [o [self' [E [[-> Hb]| ->]]]].
  - left. exists self'. split; [exact E|]. split; [exact Hb|].
    split; [exact (main_after_loop _ _ _ E) | reflexivity].
  - right. exists self'. split; [exact E | exact (main_loop_raised _ _ _ _ E)].
Qed.

(** * Further properties of the code *)

(** ** The decoder *)

Lemma lstrip_length (bs : bytes) :
  (length (Bytes.lstrip bs) <= length bs)%nat.
Proof.
  induction bs as [|b bs IH]; simpl; [lia|].
  destruct (Bytes.is_space b); simpl; lia.
Qed.

Lemma strip_length (bs : bytes) : (length (Bytes.strip bs) <= length bs)%nat.
Proof.
  unfold Bytes.strip, Bytes.rstrip.
  rewrite length_rev.
  pose proof (lstrip_length (rev (Bytes.lstrip bs))) as H1.
  rewrite length_rev in H1.
  pose proof (lstrip_length bs) as H2. lia.
Qed.

(** X1. [parse] returns a record exactly for the bodies of 43 bytes. The
    timestamp of the record is a 48-bit number, its shares are a 32-bit
    number, its price is a 32-bit number divided by 10000, and its instrument
    is ["N/A"] or a valid UTF-8 text of at most 8 bytes. *)
Theorem parse_record_bounds (msg : bytes) (ts : Z) (r : row) :
  parse msg = Normal (ts, r) ->
  length msg = 43%nat
  /\ 0 <= ts < 2 ^ 48
  /\ 0 <= Shares r < 2 ^ 32
  /\ (exists p, 0 <= p < 2 ^ 32 /\ Price r = (Float64.of_Z p / 10000)%float)
  /\ (Stock r = "N/A"%string
      \/ (Bytes.utf8_valid (list_byte_of_string (Stock r)) = true
          /\ (length (list_byte_of_string (Stock r)) <= 8)%nat)).
Proof.
  intros Hp. pose proof (parse_shares_range _ _ _ Hp) as Hs.
  revert Hp. unfold parse, unpack_trade.
  destruct (Nat.eqb_spec (length msg) 43) as [E|E]; [|discriminate].
  intros H. inversion H; subst. clear H.
  cbn [temp1 temp4 temp5 temp6 Shares Price Stock] in *.
  split; [exact E|]. split; [|split; [exact Hs|split]].
  - change (Bytes.be_uint (x00 :: x00 :: slice 4 6 msg))
      with (Bytes.be_uint (slice 4 6 msg)).
    pose proof (be_uint_range (slice 4 6 msg)) as Hr.
    assert (Hl : (length (slice 4 6 msg) <= 6)%nat)
      by (unfold slice; rewrite length_firstn; lia).
    assert (256 ^ Z.of_nat (length (slice 4 6 msg)) <= 256 ^ 6)
      by (apply Z.pow_le_mono_r; lia).
    change (2 ^ 48) with (256 ^ 6). lia.
  - exists (Bytes.be_uint (slice 31 4 msg)). split; [|reflexivity].
    pose proof (be_uint_range (slice 31 4 msg)) as Hr.
    assert (Hl : (length (slice 31 4 msg) <= 4)%nat)
      by (unfold slice; rewrite length_firstn; lia).
    assert (256 ^ Z.of_nat (length (slice 31 4 msg)) <= 256 ^ 4)
      by (apply Z.pow_le_mono_r; lia).
    change (2 ^ 32) with (256 ^ 4). lia.
  - unfold decode_utf8.
    destruct (Bytes.utf8_valid (Bytes.strip (slice 23 8 msg))) eqn:Ev;
      [right | left; reflexivity].
    rewrite list_byte_of_string_of_list_byte. split; [exact Ev|].
    pose proof (strip_length (slice 23 8 msg)) as Hl.
    assert ((length (slice 23 8 msg) <= 8)%nat)
      by (unfold slice; rewrite length_firstn; lia).
    lia.
Qed.

Lemma parse_record_bounds_witness :
  length aapl_100 = 43%nat
  /\ 0 <= 9 * ns_per_hour + 5 < 2 ^ 48
  /\ 0 <= Shares (mk_row "AAPL" 100 10) < 2 ^ 32
  /\ (exists p, 0 <= p < 2 ^ 32
                /\ Price (mk_row "AAPL" 100 10)
                   = (Float64.of_Z p / 10000)%float)
  /\ (Stock (mk_row "AAPL" 100 10) = "N/A"%string
      \/ (Bytes.utf8_valid
            (list_byte_of_string (Stock (mk_row "AAPL" 100 10))) = true
          /\ (length (list_byte_of_string (Stock (mk_row "AAPL" 100 10)))
              <= 8)%nat)).
Proof.
  apply (parse_record_bounds aapl_100 (9 * ns_per_hour + 5)
           (mk_row "AAPL" 100 10)).
  vm_compute. reflexivity.
Defined.

(** ** The lines of a VWAP frame *)

Lemma key_sorted_keys {V : Type} (g : list (string * V)) :
  key_sorted g -> StronglySorted String_as_OT.lt (map fst g).
Proof.
  induction 1 as [|p g Hs IH Hall]; simpl; constructor; [exact IH|].
  rewrite List.Forall_forall in *. intros k Hk.
  apply in_map_iff in Hk. destruct Hk as [q [<- Hq]]. exact (Hall q Hq).
Qed.

Lemma sorted_keys_NoDup (ks : list string) :
  StronglySorted String_as_OT.lt ks -> List.NoDup ks.
Proof.
  induction 1 as [|k ks Hs IH Hall]; constructor; [|exact IH].
  intros Hin. rewrite List.Forall_forall in Hall.
  exact (lt_neq _ _ (Hall k Hin) eq_refl).
Qed.

Lemma vwap_frame_keys (d : list row) :
  map fst (vwap_frame d) = map fst (groupby_sum d).
Proof.
  unfold vwap_frame. rewrite map_map. apply map_ext.
  intros [k [s t]]. reflexivity.
Qed.

Lemma vwap_frame_key_In (d : list row) (k : string) :
  In k (map fst (vwap_frame d)) <-> exists r, In r d /\ Stock r = k.
Proof.
  rewrite <- rows_of_nonempty. split.
  - intros H. apply in_map_iff in H. destruct H as [[k' v] [<- Hin]].
    apply vwap_frame_In in Hin. exact (proj1 Hin).
  - intros Hne. apply in_map_iff. eexists (k, _). split; [reflexivity|].
    apply vwap_frame_In. split; [exact Hne | reflexivity].
Qed.

(** X3. The VWAP frame of a flush lists the instruments of the bucket, each
    one once, in ascending order of the symbol; so it has no more lines than
    the bucket has records. *)
Theorem vwap_frame_instruments (d : list row) :
  StronglySorted String_as_OT.lt (map fst (vwap_frame d))
  /\ List.NoDup (map fst (vwap_frame d))
  /\ (forall k, In k (map fst (vwap_frame d))
                <-> exists r, In r d /\ Stock r = k)
  /\ (length (vwap_frame d) <= length d)%nat.
Proof.
  assert (Hs : StronglySorted String_as_OT.lt (map fst (vwap_frame d))).
  { rewrite vwap_frame_keys. apply key_sorted_keys, groupby_sum_sorted. }
  pose proof (sorted_keys_NoDup _ Hs) as Hn.
  split; [exact Hs|]. split; [exact Hn|].
  split; [apply vwap_frame_key_In|].
  rewrite <- (length_map fst (vwap_frame d)), <- (length_map Stock d).
  apply List.NoDup_incl_length; [exact Hn|].
  intros k Hk. apply vwap_frame_key_In in Hk. destruct Hk as [r [Hr <-]].
  apply in_map. exact Hr.
Qed.

(** ** Files of messages of all types *)

Lemma framed_stream_cons (t : byte) (body : bytes)
  (msgs : list (byte * bytes)) :
  framed_stream ((t, body) :: msgs) = t :: body ++ framed_stream msgs.
Proof. reflexivity. Qed.

(** X4. On a file where every tag of the table is followed by a body of the
    declared length, and every other tag stands alone, the loop ends
    normally at the end of the file, and the object is the one that
    [process_trade] builds from the bodies behind the tag [P] alone: the
    messages of the other types are read and dropped. *)
Theorem read_loop_framed (utcoffset : Z) (msgs : list (byte * bytes)) :
  forall self : Parser,
    binary_data self = framed_stream msgs ->
    msg_size_table self !! Bytes.lit "P" = Some 43%N ->
    Forall (well_framed (msg_size_table self)) msgs ->
    read_loop utcoffset self
    = (Normal tt,
       fold_left (trade_step utcoffset) (trade_bodies msgs)
         (with_binary_data self [])).
Proof.
  induction msgs as [|[t body] msgs IH]; intros self Hb Ht Hall.
  - rewrite (read_loop_nil _ _ Hb). simpl.
    change [] with (framed_stream []). rewrite <- Hb, with_binary_data_same.
    reflexivity.
  - inversion Hall as [|? ? Hm Hall']; subst.
    rewrite framed_stream_cons in Hb.
    rewrite (read_loop_cons _ _ _ _ Hb). unfold bind.
    unfold trade_bodies. cbn [List.filter fst snd].
    destruct (Byte.eqb t x50) eqn:Et.
    + apply Byte.byte_dec_bl in Et. subst t.
      destruct Hm as [Hm|[Hm _]]; cbn [fst snd] in Hm;
        change [x50] with (Bytes.lit "P") in Hm; [|congruence].
      assert (Hlen : length body = 43%nat) by (rewrite Ht in Hm; injection Hm; lia).
      destruct (parse_cases body) as [[_ [ts [r Hp]]]|[H _]]; [|contradiction].
      change [x50] with (Bytes.lit "P").
      rewrite (check_trade utcoffset 43
                 (with_binary_data self (body ++ framed_stream msgs)) Ht).
      change (binary_data (with_binary_data self (body ++ framed_stream msgs)))
        with (body ++ framed_stream msgs).
      change (N.to_nat 43%N) with 43%nat.
      rewrite <- Hlen, take_app_length, drop_app_length.
      rewrite (process_trade_Normal _ _ _ _ _ Hp).
      rewrite IH.
      * rewrite after_trade_with_binary_data.
        assert (E : trade_step utcoffset (with_binary_data self []) body
                    = after_trade (hour_of utcoffset ts) r
                        (with_binary_data self []))
          by (unfold trade_step; rewrite Hp; reflexivity).
        change (fold_left (trade_step utcoffset)
                  (map snd
                     ((x50, body)
                      :: List.filter (fun m => Byte.eqb (fst m) x50) msgs))
                  (with_binary_data self []))
          with (fold_left (trade_step utcoffset) (trade_bodies msgs)
                  (trade_step utcoffset (with_binary_data self []) body)).
        rewrite E. reflexivity.
      * apply after_trade_binary_data.
      * rewrite after_trade_table. exact Ht.
      * rewrite after_trade_table. exact Hall'.
    + apply Byte.eqb_false in Et.
      assert (Hne : [t] <> Bytes.lit "P")
        by (intros E; apply Et; injection E; trivial).
      destruct Hm as [Hm|[Hm Hbody]]; cbn [fst snd] in Hm.
      * rewrite (check_skip utcoffset [t] _
                   (with_binary_data self (body ++ framed_stream msgs))
                   Hm Hne).
        change (binary_data (with_binary_data self (body ++ framed_stream msgs)))
          with (body ++ framed_stream msgs).
        rewrite Nat2N.id, drop_app_length.
        exact (IH (with_binary_data self (framed_stream msgs))
                 eq_refl Ht Hall').
      * cbn [snd] in Hbody. subst body.
        rewrite (check_unknown utcoffset [t]
                   (with_binary_data self ([] ++ framed_stream msgs)) Hm).
        exact (IH (with_binary_data self (framed_stream msgs))
                 eq_refl Ht Hall').
Qed.

Lemma read_loop_framed_witness :
  read_loop 0
    (init NASDAQ_MSG_SIZES
       (framed_stream
          [(x53, repeat x00 11); (x50, aapl_100); (x00, []); (x50, aapl_200)]))
  = (Normal tt,
     fold_left (trade_step 0)
       (trade_bodies
          [(x53, repeat x00 11); (x50, aapl_100); (x00, []); (x50, aapl_200)])
       (with_binary_data
          (init NASDAQ_MSG_SIZES
             (framed_stream
                [(x53, repeat x00 11); (x50, aapl_100); (x00, []);
                 (x50, aapl_200)])) [])).
Proof.
  apply (read_loop_framed 0
           [(x53, repeat x00 11); (x50, aapl_100); (x00, []); (x50, aapl_200)]).
  - reflexivity.
  - vm_compute. reflexivity.
  - apply List.Forall_cons; [left; vm_compute; reflexivity|].
    apply List.Forall_cons; [left; vm_compute; reflexivity|].
    apply List.Forall_cons;
      [right; split; [vm_compute; reflexivity | reflexivity]|].
    apply List.Forall_cons; [left; vm_compute; reflexivity|].
    apply List.Forall_nil.
Defined.

(** X5. A file that ends inside, or right behind, the body of a message of a
    type other than [P] is not an error: the loop takes what is left as the
    body and ends normally, with the bucket and the reports untouched. *)
Theorem short_body_is_silent (utcoffset : Z) (self : Parser) (b : byte)
  (body : bytes) (n : N) :
  binary_data self = b :: body ->
  msg_size_table self !! [b] = Some n ->
  [b] <> Bytes.lit "P" ->
  (N.of_nat (length body) <= n)%N ->
  read_loop utcoffset self = (Normal tt, with_binary_data self []).
Proof.
  intros Hb Ht Hne Hn.
  rewrite (read_loop_cons _ _ _ _ Hb). unfold bind.
  rewrite (check_skip utcoffset [b] n (with_binary_data self body) Ht Hne).
  change (binary_data (with_binary_data self body)) with body.
  rewrite skipn_all2.
  - apply read_loop_nil. reflexivity.
  - lia.
Qed.

Lemma short_body_is_silent_witness :
  read_loop 0 (init NASDAQ_MSG_SIZES (x53 :: repeat x00 4))
  = (Normal tt,
     with_binary_data (init NASDAQ_MSG_SIZES (x53 :: repeat x00 4)) []).
Proof.
  apply (short_body_is_silent 0 (init NASDAQ_MSG_SIZES (x53 :: repeat x00 4))
           x53 (repeat x00 4) 11%N).
  - reflexivity.
  - vm_compute. reflexivity.
  - discriminate.
  - vm_compute. discriminate.
Defined.

(** ** Hour after hour *)

Lemma with_bucket_same (self : Parser) (h : Z) :
  currentHour self = Some h ->
  with_bucket self (Some h) (data self) (reports self) = self.
Proof. destruct self; simpl; intros ->; reflexivity. Qed.

(** Records of other hours than the next one pile up in the bucket. *)
Lemma no_next_hour_fold (utcoffset h : Z) (msgs : list bytes) :
  forall self : Parser,
    currentHour self = Some h ->
    Forall (fun m => exists ts r,
                parse m = Normal (ts, r)
                /\ hour_of utcoffset ts <> (h + 1) mod 24) msgs ->
    fold_left (trade_step utcoffset) msgs self
    = with_bucket self (Some h) (data self ++ parsed_rows msgs) (reports self).
Proof.
  induction msgs as [|m msgs IH]; intros self Hc Hall.
  - simpl. rewrite app_nil_r. symmetry. apply with_bucket_same. exact Hc.
  - inversion Hall as [|? ? [ts [r [Hp Hh]]] Hall']; subst.
    cbn [fold_left].
    assert (E : trade_step utcoffset self m
                = with_bucket self (Some h) (data self ++ [r]) (reports self)).
    { unfold trade_step. rewrite Hp. unfold after_trade. rewrite Hc.
      destruct (Z.eqb_spec ((h + 1) mod 24) (hour_of utcoffset ts)) as [E|_];
        [congruence | reflexivity]. }
    rewrite E, IH; [|reflexivity|exact Hall'].
    unfold parsed_rows. cbn [flat_map]. rewrite Hp.
    unfold with_bucket. cbn [data reports binary_data closed msg_size_table].
    rewrite <- app_assoc. reflexivity.
Qed.

Lemma of_hour_no_next (utcoffset h : Z) (msgs : list bytes) :
  of_hour utcoffset h msgs ->
  Forall (fun m => exists ts r,
              parse m = Normal (ts, r)
              /\ hour_of utcoffset ts <> (h + 1) mod 24) msgs.
Proof.
  intros H. eapply List.Forall_impl; [|exact H].
  intros m [ts [r [Hp Hh]]]. exists ts, r. split; [exact Hp|].
  rewrite Hh. intros E. pose proof (next_hour_neq h) as Hn.
  apply Z.eqb_neq in Hn. congruence.
Qed.

(** The first group of an hour: the bucket of the hour before is reported,
    or, at the start of the run, there is none. *)
Lemma hour_group_fold (utcoffset h : Z) (g : list bytes) (self : Parser) :
  g <> [] ->
  of_hour utcoffset h g ->
  (currentHour self = None /\ data self = []
   \/ exists cur, currentHour self = Some cur /\ h = (cur + 1) mod 24) ->
  fold_left (trade_step utcoffset) g self
  = with_bucket self (Some h) (parsed_rows g)
      (match currentHour self with
       | None => reports self
       | Some cur => reports self ++ [(cur, vwap_frame (data self))]
       end).
Proof.
  intros Hne Hall Hc. destruct g as [|m g]; [congruence|].
  inversion Hall as [|? ? [ts [r [Hp Hh]]] Hall']; subst.
  cbn [fold_left].
  assert (E : trade_step utcoffset self m
              = with_bucket self (Some (hour_of utcoffset ts)) [r]
                  (match currentHour self with
                   | None => reports self
                   | Some cur => reports self ++ [(cur, vwap_frame (data self))]
                   end)).
  { unfold trade_step. rewrite Hp. unfold after_trade.
    destruct Hc as [[Hc Hd]|[cur [Hc Hcur]]]; rewrite Hc.
    - rewrite Hd. reflexivity.
    - rewrite <- Hcur, Z.eqb_refl. reflexivity. }
  rewrite E.
  rewrite (no_next_hour_fold utcoffset (hour_of utcoffset ts) g);
    [|reflexivity|apply of_hour_no_next; exact Hall'].
  unfold parsed_rows. cbn [flat_map]. rewrite Hp. reflexivity.
Qed.

Lemma hourly_fold (utcoffset : Z) (groups : list (list bytes)) :
  forall (self : Parser) (h : Z),
    groups <> [] ->
    hourly utcoffset h groups ->
    (currentHour self = None /\ data self = []
     \/ exists cur, currentHour self = Some cur /\ h = (cur + 1) mod 24) ->
    reports (fold_left (trade_step utcoffset) (concat groups) self)
    = (match currentHour self with
       | None => reports self
       | Some cur => reports self ++ [(cur, vwap_frame (data self))]
       end) ++ hourly_reports h groups
    /\ data (fold_left (trade_step utcoffset) (concat groups) self)
       = parsed_rows (List.last groups []).
Proof.
  induction groups as [|g gs IH]; intros self h Hne Hh Hc; [congruence|].
  destruct Hh as [Hg [Hof Hrest]].
  cbn [concat]. rewrite fold_left_app.
  rewrite (hour_group_fold utcoffset h g self Hg Hof Hc).
  destruct gs as [|g2 gs'].
  - simpl. rewrite app_nil_r. split; reflexivity.
  - set (s1 := with_bucket self (Some h) (parsed_rows g) _).
    destruct (IH s1 ((h + 1) mod 24) ltac:(discriminate) Hrest) as [Hr Hd].
    { right. exists h. split; reflexivity. }
    split; [|exact Hd].
    rewrite Hr. subst s1. cbn [currentHour reports data with_bucket].
    rewrite (vwap_frame_table (parsed_rows g)), <- app_assoc. reflexivity.
Qed.

Lemma of_hour_length (utcoffset h : Z) (msgs : list bytes) :
  of_hour utcoffset h msgs -> Forall (fun m => length m = 43%nat) msgs.
Proof.
  intros H. eapply List.Forall_impl; [|exact H].
  intros m [ts [r [Hp _]]].
  destruct (parse_cases m) as [[Hl _]|[_ Hr]]; [exact Hl | congruence].
Qed.

Lemma hourly_length (utcoffset : Z) (groups : list (list bytes)) :
  forall h, hourly utcoffset h groups ->
            Forall (fun m => length m = 43%nat) (concat groups).
Proof.
  induction groups as [|g gs IH]; intros h Hh; [constructor|].
  destruct Hh as [_ [Hof Hrest]]. cbn [concat].
  apply Forall_app. split; [exact (of_hour_length _ _ _ Hof)|].
  exact (IH _ Hrest).
Qed.

(** X6. On a file of trades that come hour after hour, a non-empty group for
    each hour, the run reports for every hour but the last, in order and
    under its hour, the table that has a line for each instrument traded in
    that hour with the VWAP over its records of that hour; it ends with the
    records of the last hour in the bucket. *)
Theorem hourly_run (utcoffset h : Z) (table : gmap bytes N)
  (groups : list (list bytes)) :
  table !! Bytes.lit "P" = Some 43%N ->
  groups <> [] ->
  hourly utcoffset h groups ->
  reports
    (snd (main utcoffset (init table (trade_stream (concat groups)))))
  = hourly_reports h groups
  /\ data
       (snd (main utcoffset (init table (trade_stream (concat groups)))))
     = parsed_rows (List.last groups []).
Proof.
  intros Ht Hne Hh.
  rewrite (main_after_loop _ _ _
             (read_loop_trades utcoffset (concat groups)
                (init table (trade_stream (concat groups))) eq_refl Ht
                (hourly_length _ _ _ Hh))).
  cbn [snd]. unfold with_closed. cbn [reports data].
  exact (hourly_fold utcoffset groups
           (with_binary_data (init table (trade_stream (concat groups))) [])
           h Hne Hh (or_introl (conj eq_refl eq_refl))).
Qed.

Lemma hourly_run_witness :
  hourly_reports 9 [[aapl_100; aapl_200]; [msft_10h]]
  = [(9, [("AAPL"%string, 10.67%float)])]
  /\ reports
       (snd (main 0
               (init NASDAQ_MSG_SIZES
                  (trade_stream
                     (concat [[aapl_100; aapl_200]; [msft_10h]])))))
     = hourly_reports 9 [[aapl_100; aapl_200]; [msft_10h]]
  /\ data
       (snd (main 0
               (init NASDAQ_MSG_SIZES
                  (trade_stream
                     (concat [[aapl_100; aapl_200]; [msft_10h]])))))
     = parsed_rows (List.last [[aapl_100; aapl_200]; [msft_10h]] []).
Proof.
  split; [vm_compute; reflexivity|].
  apply (hourly_run 0 9 NASDAQ_MSG_SIZES [[aapl_100; aapl_200]; [msft_10h]]).
  - vm_compute. reflexivity.
  - discriminate.
  - split; [discriminate|]. split.
    + apply List.Forall_cons.
      * exists (9 * ns_per_hour + 5), (mk_row "AAPL" 100 10).
        vm_compute. split; reflexivity.
      * apply List.Forall_cons; [|apply List.Forall_nil].
        exists (9 * ns_per_hour + 7), (mk_row "AAPL" 200 11).
        vm_compute. split; reflexivity.
    + split; [discriminate|]. split; [|exact I].
      apply List.Forall_cons; [|apply List.Forall_nil].
      exists (10 * ns_per_hour), (mk_row "MSFT" 5 100).
      vm_compute. split; reflexivity.
Defined.

(** X7. When no record behind the first one has the hour that follows the
    hour of the first, nothing is ever reported: records of any other hour,
    earlier or later, join the bucket of the first hour, and the current
    hour stays that of the first record. *)
Theorem no_report_without_next_hour (utcoffset h : Z) (table : gmap bytes N)
  (m0 : bytes) (rest : list bytes) :
  table !! Bytes.lit "P" = Some 43%N ->
  (exists ts r, parse m0 = Normal (ts, r) /\ hour_of utcoffset ts = h) ->
  Forall (fun m => exists ts r,
              parse m = Normal (ts, r)
              /\ hour_of utcoffset ts <> (h + 1) mod 24) rest ->
  reports (snd (main utcoffset (init table (trade_stream (m0 :: rest))))) = []
  /\ data (snd (main utcoffset (init table (trade_stream (m0 :: rest)))))
     = parsed_rows (m0 :: rest)
  /\ currentHour
       (snd (main utcoffset (init table (trade_stream (m0 :: rest)))))
     = Some h.
Proof.
  intros Ht [ts0 [r0 [Hp0 Hh0]]] Hall.
  assert (Hlen : Forall (fun m => length m = 43%nat) (m0 :: rest)).
  { constructor.
    - destruct (parse_cases m0) as [[Hl _]|[_ Hr]]; [exact Hl | congruence].
    - eapply List.Forall_impl; [|exact Hall]. intros m [ts [r [Hp _]]].
      destruct (parse_cases m) as [[Hl _]|[_ Hr]]; [exact Hl | congruence]. }
  rewrite (main_after_loop _ _ _
             (read_loop_trades utcoffset (m0 :: rest)
                (init table (trade_stream (m0 :: rest))) eq_refl Ht Hlen)).
  cbn [snd fold_left]. unfold with_closed. cbn [reports data currentHour].
  assert (E : trade_step utcoffset
                (with_binary_data (init table (trade_stream (m0 :: rest))) [])
                m0
              = with_bucket
                  (with_binary_data
                     (init table (trade_stream (m0 :: rest))) [])
                  (Some h) [r0] []).
  { unfold trade_step. rewrite Hp0, Hh0. reflexivity. }
  rewrite E.
  rewrite (no_next_hour_fold utcoffset h rest
             (with_bucket
                (with_binary_data
                   (init table (trade_stream (m0 :: rest))) [])
                (Some h) [r0] []) eq_refl Hall).
  cbn [reports data currentHour with_bucket].
  unfold parsed_rows. cbn [flat_map]. rewrite Hp0.
  repeat split.
Qed.

Lemma no_report_without_next_hour_witness :
  reports
    (snd (main 0
            (init NASDAQ_MSG_SIZES
               (trade_stream (msft_10h :: [aapl_100; aapl_midnight])))))
  = []
  /\ data
       (snd (main 0
               (init NASDAQ_MSG_SIZES
                  (trade_stream (msft_10h :: [aapl_100; aapl_midnight])))))
     = parsed_rows (msft_10h :: [aapl_100; aapl_midnight])
  /\ currentHour
       (snd (main 0
               (init NASDAQ_MSG_SIZES
                  (trade_stream (msft_10h :: [aapl_100; aapl_midnight])))))
     = Some 10.
Proof.
  apply (no_report_without_next_hour 0 10 NASDAQ_MSG_SIZES msft_10h
           [aapl_100; aapl_midnight]).
  - vm_compute. reflexivity.
  - exists (10 * ns_per_hour), (mk_row "MSFT" 5 100).
    vm_compute. split; reflexivity.
  - apply List.Forall_cons.
    + exists (9 * ns_per_hour + 5), (mk_row "AAPL" 100 10).
      split; [vm_compute; reflexivity | vm_compute; discriminate].
    + apply List.Forall_cons; [|apply List.Forall_nil].
      exists 5, (mk_row "AAPL" 100 10).
      split; [vm_compute; reflexivity | vm_compute; discriminate].
Defined.

(** ** What a run keeps *)

Section RunInvariant.

Variable P : Parser -> Prop.
Hypothesis P_binary_data : forall self bs, P self -> P (with_binary_data self bs).
Hypothesis P_closed : forall self, P self -> P (with_closed self).
Hypothesis P_trade :
  forall self h r,
    0 <= h < 24 -> 0 <= Shares r < 2 ^ 32 -> P self -> P (after_trade h r self).

Lemma check_invariant (utcoffset : Z) (msg_type : bytes) (self : Parser) :
  P self -> P (snd (check_for_trade_msg utcoffset msg_type self)).
Proof.
  intros HP. destruct (msg_size_table self !! msg_type) as [n|] eqn:Et.
  - destruct (decide (msg_type = Bytes.lit "P")) as [->|Hne].
    + rewrite (check_trade _ _ _ Et).
      set (msg := firstn _ _). set (self' := with_binary_data _ _).
      assert (HP' : P self') by (apply P_binary_data; exact HP).
      destruct (parse_cases msg) as [[_ [ts [r Hp]]]|[_ Hp]].
      * rewrite (process_trade_Normal _ _ _ _ _ Hp). cbn [snd].
        apply P_trade; [apply hour_of_range| |exact HP'].
        exact (parse_shares_range _ _ _ Hp).
      * rewrite (process_trade_Raised _ _ _ _ Hp). exact HP'.
    + rewrite (check_skip _ _ _ _ Et Hne). apply P_binary_data. exact HP.
  - rewrite (check_unknown _ _ _ Et). exact HP.
Qed.

Lemma read_loop_invariant (utcoffset : Z) (n : nat) :
  forall self : Parser,
    (length (binary_data self) <= n)%nat ->
    P self -> P (snd (read_loop utcoffset self)).
Proof.
  induction n as [|n IH]; intros self Hn HP.
  - destruct (binary_data self) as [|b bs] eqn:E; [|simpl in Hn; lia].
    rewrite (read_loop_nil _ _ E). exact HP.
  - destruct (binary_data self) as [|b bs] eqn:E.
    + rewrite (read_loop_nil _ _ E). exact HP.
    + rewrite (read_loop_cons _ _ _ _ E). unfold bind.
      pose proof (check_invariant utcoffset [b] (with_binary_data self bs)
                    (P_binary_data _ _ HP)) as HP1.
      destruct (check_outcome utcoffset [b] (with_binary_data self bs))
        as [o [self1 [Ec [Ho [k Hk]]]]].
      rewrite Ec in HP1 |- *. cbn [snd] in HP1.
      destruct Ho as [->| ->]; [|exact HP1].
      apply IH; [|exact HP1].
      pose proof (skipn_length_le k (binary_data (with_binary_data self bs)))
        as Hle.
      rewrite <- Hk in Hle. simpl in Hle, Hn. lia.
Qed.

(** A property of the object that reading, closing and [process_trade] keep
    holds at the end of every run that starts with it. *)
Lemma main_invariant (utcoffset : Z) (self : Parser) :
  P self -> P (snd (main utcoffset self)).
Proof.
  intros HP.
  pose proof (read_loop_invariant utcoffset _ self (Nat.le_refl _) HP) as HL.
  destruct (read_loop_total utcoffset _ self (Nat.le_refl _))
    as [o [self' [E [[-> _]| ->]]]]; rewrite E in HL; cbn [snd] in HL.
  - rewrite (main_after_loop _ _ _ E). apply P_closed. exact HL.
  - rewrite (main_loop_raised _ _ _ _ E). exact HL.
Qed.

End RunInvariant.

Lemma vwap_frame_nonempty (d : list row) : d <> [] -> vwap_frame d <> [].
Proof.
  destruct d as [|r d]; [congruence|]. intros _ E.
  assert (H : In (Stock r) (map fst (vwap_frame (r :: d)))).
  { apply vwap_frame_key_In. exists r. split; [left|]; reflexivity. }
  rewrite E in H. destruct H.
Qed.

Lemma after_trade_bucket_ok (self : Parser) (h : Z) (r : row) :
  0 <= h < 24 -> 0 <= Shares r < 2 ^ 32 ->
  bucket_ok self -> bucket_ok (after_trade h r self).
Proof.
  intros Hh Hr [Hc [Hd Hreps]].
  assert (Hone : Forall (fun r => 0 <= Shares r < 2 ^ 32) [r])
    by (apply List.Forall_cons; [exact Hr | apply List.Forall_nil]).
  assert (Happ : Forall (fun r => 0 <= Shares r < 2 ^ 32) (data self ++ [r]))
    by (apply Forall_app; split; [exact Hd | exact Hone]).
  assert (Hnn : data self ++ [r] <> [])
    by (intros E; apply app_eq_nil in E; destruct E as [_ E]; discriminate).
  unfold after_trade, bucket_ok.
  destruct (currentHour self) as [cur|] eqn:Ec.
  - destruct Hc as [Hcur Hne].
    destruct ((cur + 1) mod 24 =? h); cbn [with_bucket currentHour data reports].
    + split; [split; [exact Hh | discriminate]|].
      split; [exact Hone|].
      apply Forall_app. split; [exact Hreps|].
      apply List.Forall_cons; [|apply List.Forall_nil].
      split; [exact Hcur|]. apply vwap_frame_nonempty. exact Hne.
    + split; [split; [exact Hcur | exact Hnn]|].
      split; [exact Happ | exact Hreps].
  - cbn [with_bucket currentHour data reports].
    split; [split; [exact Hh | exact Hnn]|].
    split; [exact Happ | exact Hreps].
Qed.

(** X8. All along a run, and at its end: before the first trade the bucket
    and the reports are empty; after it the current hour is a number from 0
    to 23 and the bucket is not empty; the shares of the records of the
    bucket are 32-bit numbers; and every report has an hour from 0 to 23 and
    at least one line. *)
Theorem run_keeps_bucket_ok (utcoffset : Z) (self : Parser) :
  bucket_ok self -> bucket_ok (snd (main utcoffset self)).
Proof.
  apply (main_invariant bucket_ok).
  - intros s bs H. exact H.
  - intros s H. exact H.
  - intros s h r Hh Hr H. exact (after_trade_bucket_ok s h r Hh Hr H).
Qed.

Lemma run_keeps_bucket_ok_witness :
  bucket_ok
    (snd (main 0
            (init NASDAQ_MSG_SIZES
               (trade_stream [aapl_100; aapl_200; msft_10h])))).
Proof.
  apply (run_keeps_bucket_ok 0
           (init NASDAQ_MSG_SIZES
              (trade_stream [aapl_100; aapl_200; msft_10h]))).
  split; [split; reflexivity|]. split; constructor.
Defined.

(** ** Time zones a whole number of hours apart *)

Lemma hour_of_shift (utcoffset k timestamp : Z) :
  hour_of (utcoffset + 3600 * k) timestamp
  = (hour_of utcoffset timestamp + k) mod 24.
Proof.
  rewrite !hour_of_fromtimestamp. unfold fromtimestamp_hour.
  set (sec' := if (_ <=? _)%float then _ else _).
  replace (sec' + (utcoffset + 3600 * k)) with (sec' + utcoffset + k * 3600)
    by ring.
  rewrite Z.div_add by lia. rewrite Zplus_mod_idemp_l. reflexivity.
Qed.

Lemma next_hour_shift (cur h k : Z) :
  0 <= h < 24 ->
  (((cur + k) mod 24 + 1) mod 24 =? (h + k) mod 24)
  = ((cur + 1) mod 24 =? h).
Proof.
  intros Hh.
  replace (((cur + k) mod 24 + 1) mod 24) with ((cur + 1 + k) mod 24).
  - destruct (Z.eqb_spec ((cur + 1) mod 24) h) as [E|E].
    + apply Z.eqb_eq. rewrite <- E. rewrite Zplus_mod_idemp_l. reflexivity.
    + apply Z.eqb_neq. intros E'. apply E.
      pose proof (Z.mod_pos_bound (cur + 1) 24 ltac:(lia)) as Hb.
      assert (H : ((cur + 1) mod 24 + k) mod 24 = (h + k) mod 24)
        by (rewrite Zplus_mod_idemp_l; exact E').
      set (a := (cur + 1) mod 24) in *.
      pose proof (Z.div_mod (a + k) 24 ltac:(lia)) as H1.
      pose proof (Z.div_mod (h + k) 24 ltac:(lia)) as H2.
      rewrite H in H1. lia.
  - rewrite Zplus_mod_idemp_l. f_equal. ring.
Qed.

Lemma after_trade_relabel (k h : Z) (r : row) (self : Parser) :
  0 <= h < 24 ->
  after_trade ((h + k) mod 24) r (relabel k self)
  = relabel k (after_trade h r self).
Proof.
  intros Hh. unfold after_trade, relabel.
  cbn [with_bucket currentHour data reports].
  destruct (currentHour self) as [cur|]; cbn [option_map].
  - rewrite (next_hour_shift cur h k Hh).
    destruct ((cur + 1) mod 24 =? h);
      unfold with_bucket;
      cbn [binary_data closed msg_size_table data currentHour reports
           option_map]; [|reflexivity].
    rewrite map_app. reflexivity.
  - reflexivity.
Qed.

Lemma check_relabel (utcoffset k : Z) (msg_type : bytes) (self : Parser) :
  check_for_trade_msg (utcoffset + 3600 * k) msg_type (relabel k self)
  = (fst (check_for_trade_msg utcoffset msg_type self),
     relabel k (snd (check_for_trade_msg utcoffset msg_type self))).
Proof.
  destruct (msg_size_table self !! msg_type) as [n|] eqn:Et.
  - destruct (decide (msg_type = Bytes.lit "P")) as [->|Hne].
    + rewrite (check_trade _ n (relabel k self) Et), (check_trade _ _ _ Et).
      change (binary_data (relabel k self)) with (binary_data self).
      set (msg := firstn _ _). set (bs := skipn _ _).
      change (with_binary_data (relabel k self) bs)
        with (relabel k (with_binary_data self bs)).
      destruct (parse_cases msg) as [[_ [ts [r Hp]]]|[_ Hp]].
      * rewrite !(process_trade_Normal _ _ _ _ _ Hp), hour_of_shift.
        rewrite after_trade_relabel by apply hour_of_range. reflexivity.
      * rewrite !(process_trade_Raised _ _ _ _ Hp). reflexivity.
    + rewrite (check_skip _ _ n (relabel k self) Et Hne),
        (check_skip _ _ _ _ Et Hne). reflexivity.
  - rewrite (check_unknown _ _ (relabel k self) Et), (check_unknown _ _ _ Et).
    reflexivity.
Qed.

Lemma while_relabel (utcoffset k : Z) (fuel : nat) :
  forall (msg_type : bytes) (self : Parser),
    while_msg_type fuel (utcoffset + 3600 * k) msg_type (relabel k self)
    = (fst (while_msg_type fuel utcoffset msg_type self),
       relabel k (snd (while_msg_type fuel utcoffset msg_type self))).
Proof.
  induction fuel as [|fuel IH]; intros msg_type self.
  - destruct msg_type; reflexivity.
  - destruct msg_type as [|b mt]; [reflexivity|].
    cbn [while_msg_type]. unfold bind.
    rewrite check_relabel.
    destruct (check_for_trade_msg utcoffset (b :: mt) self) as [o self1].
    cbn [fst snd]. destruct o as [[]|e|]; [|reflexivity|reflexivity].
    unfold read_binary_msg_type. rewrite !read_eq.
    change (binary_data (relabel k self1)) with (binary_data self1).
    exact (IH _ (with_binary_data self1 _)).
Qed.

(** X10. Between two machines whose time zones are a whole number [k] of
    hours apart, a run differs in the hour labels only: it ends in the same
    way, with the same bucket and the same VWAP frames in the same order,
    every hour moved by [k] modulo 24. *)
Theorem main_relabel (utcoffset k : Z) (self : Parser) :
  main (utcoffset + 3600 * k) (relabel k self)
  = (fst (main utcoffset self), relabel k (snd (main utcoffset self))).
Proof.
  unfold main, read_loop, bind, get.
  change (binary_data (relabel k self)) with (binary_data self).
  unfold read_binary_msg_type. rewrite !read_eq.
  change (binary_data (relabel k self)) with (binary_data self).
  set (mt := firstn _ _). set (bs := skipn _ _).
  change (with_binary_data (relabel k self) bs)
    with (relabel k (with_binary_data self bs)).
  rewrite while_relabel.
  destruct (while_msg_type _ utcoffset mt (with_binary_data self bs))
    as [o s1].
  cbn [fst snd]. destruct o as [[]|e|]; reflexivity.
Qed.

(** ** Packing and unpacking a trade *)

Lemma length_be_bytes (n : nat) (z : Z) : length (be_bytes n z) = n.
Proof.
  revert z. induction n as [|n IH]; intros z; [reflexivity|].
  cbn [be_bytes]. rewrite length_app, IH. simpl. lia.
Qed.

Lemma be_uint_snoc (bs : bytes) (b : byte) :
  Bytes.be_uint (bs ++ [b]) = Bytes.be_uint bs * 256 + Bytes.to_Z b.
Proof. unfold Bytes.be_uint. rewrite fold_left_app. reflexivity. Qed.

Lemma to_Z_of_N (m : Z) :
  0 <= m < 256 ->
  Bytes.to_Z (match Byte.of_N (Z.to_N m) with Some b => b | None => x00 end)
  = m.
Proof.
  intros Hm. destruct (Byte.of_N (Z.to_N m)) as [b|] eqn:E.
  - apply Byte.to_of_N in E. unfold Bytes.to_Z. rewrite E. lia.
  - apply Byte.of_N_None_iff in E. lia.
Qed.

Lemma be_uint_be_bytes (n : nat) :
  forall z, 0 <= z < 256 ^ Z.of_nat n -> Bytes.be_uint (be_bytes n z) = z.
Proof.
  induction n as [|n IH]; intros z Hz.
  - simpl in Hz. unfold Bytes.be_uint. simpl. lia.
  - cbn [be_bytes]. rewrite be_uint_snoc.
    rewrite Nat2Z.inj_succ, Z.pow_succ_r in Hz by lia.
    rewrite IH.
    + rewrite to_Z_of_N by (apply Z.mod_pos_bound; lia).
      pose proof (Z.div_mod z 256 ltac:(lia)). lia.
    + split; [apply Z.div_pos; lia|].
      apply Z.div_lt_upper_bound; lia.
Qed.

Lemma slice_at (pre field post : bytes) (off len : nat) :
  length pre = off -> length field = len ->
  slice off len (pre ++ field ++ post) = field.
Proof.
  intros <- <-. unfold slice.
  rewrite drop_app_length, take_app_length. reflexivity.
Qed.

Lemma firstn_repeat (b : byte) (k n : nat) :
  (k <= n)%nat -> firstn k (repeat b n) = repeat b k.
Proof.
  revert n. induction k as [|k IH]; intros n Hk; [reflexivity|].
  destruct n as [|n]; [lia|]. simpl. f_equal. apply IH. lia.
Qed.

Lemma rev_repeat_byte (b : byte) (k : nat) : rev (repeat b k) = repeat b k.
Proof.
  induction k as [|k IH]; [reflexivity|].
  simpl. rewrite IH. symmetry. apply repeat_cons.
Qed.

Lemma lstrip_spaces (k : nat) (l : bytes) :
  Bytes.lstrip (repeat x20 k ++ l) = Bytes.lstrip l.
Proof. induction k as [|k IH]; [reflexivity | exact IH]. Qed.

Lemma lstrip_graphic (l : bytes) :
  Forall (fun b => 32 < Bytes.to_Z b < 127) l -> Bytes.lstrip l = l.
Proof.
  intros H. destruct H as [|b l Hb _]; [reflexivity|].
  simpl. unfold Bytes.is_space.
  destruct (Z.eqb_spec (Bytes.to_Z b) 32) as [E|_]; [lia|].
  destruct (Z.leb_spec (Bytes.to_Z b) 13) as [E|_]; [lia|].
  rewrite andb_false_r. reflexivity.
Qed.

(** Padding with spaces is what [strip] takes off a symbol of graphic ASCII
    characters. *)
Lemma strip_padded (sym : bytes) (k : nat) :
  Forall (fun b => 32 < Bytes.to_Z b < 127) sym ->
  Bytes.strip (sym ++ repeat x20 k) = sym.
Proof.
  intros H. unfold Bytes.strip, Bytes.rstrip.
  destruct sym as [|b s].
  - change ([] ++ repeat x20 k) with (repeat x20 k).
    rewrite <- (app_nil_r (repeat x20 k)), lstrip_spaces. reflexivity.
  - assert (E : Bytes.lstrip ((b :: s) ++ repeat x20 k)
                = (b :: s) ++ repeat x20 k).
    { inversion H as [|? ? Hb _]; subst. simpl. unfold Bytes.is_space.
      destruct (Z.eqb_spec (Bytes.to_Z b) 32) as [E|_]; [lia|].
      destruct (Z.leb_spec (Bytes.to_Z b) 13) as [E|_]; [lia|].
      rewrite andb_false_r. reflexivity. }
    rewrite E, rev_app_distr, rev_repeat_byte, lstrip_spaces.
    rewrite lstrip_graphic; [apply rev_involutive|].
    apply List.Forall_rev. exact H.
Qed.

Lemma utf8_valid_ascii (l : bytes) :
  Forall (fun b => 32 < Bytes.to_Z b < 127) l -> Bytes.utf8_valid l = true.
Proof.
  induction 1 as [|b l Hb _ IH]; [reflexivity|].
  cbn [Bytes.utf8_valid].
  destruct (Z.ltb_spec (Bytes.to_Z b) 128) as [_|E]; [exact IH | lia].
Qed.

(** X11. [parse] undoes the packing of a trade in the layout [>4s6sQcI8sIQ]:
    for a 48-bit timestamp, 32-bit shares and price, and a symbol of at most
    8 graphic ASCII characters padded with spaces, it returns the timestamp,
    the symbol without its padding, the shares and the price divided by
    10000. *)
Theorem parse_pack_trade (timestamp shares price : Z) (symbol : bytes) :
  0 <= timestamp < 2 ^ 48 ->
  0 <= shares < 2 ^ 32 ->
  0 <= price < 2 ^ 32 ->
  (length symbol <= 8)%nat ->
  Forall (fun b => 32 < Bytes.to_Z b < 127) symbol ->
  parse (pack_trade timestamp shares symbol price)
  = Normal (timestamp,
            mk_row (string_of_list_byte symbol) shares
              (Float64.of_Z price / 10000)%float).
Proof.
  intros Hts Hsh Hpr Hlen Hsym.
  assert (Ef : firstn 8 (symbol ++ repeat x20 8)
               = symbol ++ repeat x20 (8 - length symbol)).
  { rewrite firstn_app, firstn_all2 by lia.
    rewrite firstn_repeat by lia. reflexivity. }
  assert (Lf : length (firstn 8 (symbol ++ repeat x20 8)) = 8%nat).
  { rewrite Ef, length_app, repeat_length. lia. }
  set (msg := pack_trade timestamp shares symbol price).
  assert (Lm : length msg = 43%nat).
  { subst msg. unfold pack_trade.
    rewrite !length_app, !length_be_bytes, Lf. reflexivity. }
  assert (E1 : slice 4 6 msg = be_bytes 6 timestamp).
  { subst msg. unfold pack_trade. apply slice_at; apply length_be_bytes. }
  assert (E4 : slice 19 4 msg = be_bytes 4 shares).
  { subst msg. unfold pack_trade.
    transitivity
      (slice 19 4
         ((be_bytes 4 0 ++ be_bytes 6 timestamp ++ be_bytes 8 0
           ++ Bytes.lit "B")
          ++ be_bytes 4 shares
          ++ firstn 8 (symbol ++ repeat x20 8)
          ++ be_bytes 4 price ++ be_bytes 8 0)).
    - rewrite <- !app_assoc. reflexivity.
    - apply slice_at; [|apply length_be_bytes].
      rewrite !length_app, !length_be_bytes. reflexivity. }
  assert (E5 : slice 23 8 msg = firstn 8 (symbol ++ repeat x20 8)).
  { subst msg. unfold pack_trade.
    transitivity
      (slice 23 8
         ((be_bytes 4 0 ++ be_bytes 6 timestamp ++ be_bytes 8 0
           ++ Bytes.lit "B" ++ be_bytes 4 shares)
          ++ firstn 8 (symbol ++ repeat x20 8)
          ++ be_bytes 4 price ++ be_bytes 8 0)).
    - rewrite <- !app_assoc. reflexivity.
    - apply slice_at; [|exact Lf].
      rewrite !length_app, !length_be_bytes. reflexivity. }
  assert (E6 : slice 31 4 msg = be_bytes 4 price).
  { subst msg. unfold pack_trade.
    transitivity
      (slice 31 4
         ((be_bytes 4 0 ++ be_bytes 6 timestamp ++ be_bytes 8 0
           ++ Bytes.lit "B" ++ be_bytes 4 shares
           ++ firstn 8 (symbol ++ repeat x20 8))
          ++ be_bytes 4 price ++ be_bytes 8 0)).
    - rewrite <- !app_assoc. reflexivity.
    - apply slice_at; [|apply length_be_bytes].
      rewrite !length_app, !length_be_bytes, Lf. reflexivity. }
  clearbody msg. unfold parse, unpack_trade. rewrite Lm.
  change ((43 =? 43)%nat) with true. cbv iota.
  cbn [temp1 temp4 temp5 temp6]. rewrite E1, E4, E5, E6.
  change (Bytes.be_uint ([x00; x00] ++ be_bytes 6 timestamp))
    with (Bytes.be_uint (be_bytes 6 timestamp)).
  rewrite !be_uint_be_bytes by assumption.
  rewrite Ef, (strip_padded _ _ Hsym).
  unfold decode_utf8. rewrite (utf8_valid_ascii _ Hsym). reflexivity.
Qed.

Lemma parse_pack_trade_witness :
  parse (pack_trade (9 * ns_per_hour + 5) 100 (Bytes.lit "AAPL") 100000)
  = Normal (9 * ns_per_hour + 5,
            mk_row (string_of_list_byte (Bytes.lit "AAPL")) 100
              (Float64.of_Z 100000 / 10000)%float).
Proof.
  apply (parse_pack_trade (9 * ns_per_hour + 5) 100 100000 (Bytes.lit "AAPL")).
  - vm_compute. split; [discriminate | reflexivity].
  - lia.
  - lia.
  - vm_compute. lia.
  - repeat (apply List.Forall_cons; [vm_compute; split; reflexivity|]).
    apply List.Forall_nil.
Defined.
